(** * Quiz and flashcard engine of the AI study assistant

    A shallow embedding of [minigames/quiz_game.py] and
    [minigames/flashcards.py].  Python dictionaries that hold a question are
    finite maps from key names to Python values, so that the presence of a
    key can be stated; quizzes, sessions, cards and card sets are records.
    The file system, the clock, [uuid.uuid4] and [random] are threaded
    through a state monad; exceptions are part of the monad's result. *)

From Stdlib Require Import ZArith Ascii String DecimalString Sorted PrimFloat FloatOps SpecFloat Uint63.
From stdpp Require Import gmap strings list fin_maps.

Local Open Scope Z_scope.

(** ** Python values and built-ins *)

Module Py.

(** The values a question dictionary holds once it went through
      [json.dump] / [json.load]: ids and texts are strings, [answers] is a
      list of strings, the answer indices are integers, [is_correct] is a
      boolean or [None]. *)
Inductive pyval :=
  | PNone
  | PBool (b : bool)
  | PInt (n : Z)
  | PStr (s : string)
  | PList (l : list string).

#[export] Instance pyval_eq_dec : EqDecision pyval.
Proof. solve_decision. Defined.

(** Python's [==]: [bool] is a subclass of [int], so [True == 1]. *)
Definition py_eqb (a b : pyval) : bool :=
    match a, b with
    | PNone, PNone => true
    | PBool x, PBool y => Bool.eqb x y
    | PInt x, PInt y => x =? y
    | PBool x, PInt y => (if x then 1 else 0) =? y
    | PInt x, PBool y => x =? (if y then 1 else 0)
    | PStr x, PStr y => bool_decide (x = y)
    | PList x, PList y => bool_decide (x = y)
    | _, _ => false
    end.

(** Truth value of an object, as [if v] tests it. *)
Definition truthy (v : pyval) : bool :=
    match v with
    | PNone => false
    | PBool b => b
    | PInt n => negb (n =? 0)
    | PStr s => negb (bool_decide (s = EmptyString))
    | PList l => negb (bool_decide (l = []))
    end.

Inductive exn :=
  | IndexError
  | KeyError (key : string)
  | ZeroDivisionError
  | ValueError
  | OverflowError.

Inductive res (A : Type) :=
  | Ok (a : A)
  | Raise (e : exn).
Arguments Ok {A} a.
Arguments Raise {A} e.

(** [l[i]] for a Python list: a negative [i] counts from the end; the
      result carries the position that was read, for a later store. *)
Definition getitem {A} (l : list A) (i : Z) : res (nat * A) :=
    let pos := if 0 <=? i then i else Z.of_nat (length l) + i in
    if pos <? 0 then Raise IndexError
    else match l !! Z.to_nat pos with
         | Some x => Ok (Z.to_nat pos, x)
         | None => Raise IndexError
         end.

(** [l[:k]]: a negative [k] drops [-k] elements from the end. *)
Definition slice_to {A} (l : list A) (k : Z) : list A :=
    if 0 <=? k then take (Z.to_nat k) l
    else take (Z.to_nat (Z.of_nat (length l) + k)) l.

(** [d[key]] on a dictionary. *)
Definition getkey (d : gmap string pyval) (key : string) : res pyval :=
    match d !! key with
    | Some v => Ok v
    | None => Raise (KeyError key)
    end.

(** [int] to [float]; exact below [2^53], which every list length is. *)
Definition float_of_nat (n : nat) : float :=
    PrimFloat.of_uint63 (Uint63.of_Z (Z.of_nat n)).

(** [a / b] on two non-negative [int]s: true division, a binary64. *)
Definition truediv (a b : nat) : res float :=
    if bool_decide (b = 0%nat) then Raise ZeroDivisionError
    else Ok (PrimFloat.div (float_of_nat a) (float_of_nat b)).

(** Nearest integer to [m * 2^e], ties to the even one. *)
Definition round_half_even_pow2 (m e : Z) : Z :=
    if 0 <=? e then m * 2 ^ e
    else
      let d := 2 ^ (- e) in
      let q := m / d in
      let r := m mod d in
      if 2 * r <? d then q
      else if d <? 2 * r then q + 1
      else if Z.even q then q else q + 1.

(** [round(x)] on a [float], with no [ndigits]: an [int], the nearest
      one to the exact value of [x], ties to even. *)
Definition round (x : float) : res Z :=
    match Prim2SF x with
    | S754_zero _ => Ok 0
    | S754_finite s m e =>
        let v := round_half_even_pow2 (Z.pos m) e in
        Ok (if s then - v else v)
    | S754_infinity _ => Raise OverflowError
    | S754_nan => Raise ValueError
    end.

(** [os.path.join(a, b)] of [posixpath]. *)
Fixpoint ends_with_slash (s : string) : bool :=
    match s with
    | EmptyString => false
    | String c EmptyString => bool_decide (c = "/"%char)
    | String _ rest => ends_with_slash rest
    end.

Definition path_join (a b : string) : string :=
    if String.prefix "/" b then b
    else if bool_decide (a = EmptyString) || ends_with_slash a then a +:+ b
    else a +:+ "/" +:+ b.

End Py.

Import Py.

(** ** Directories *)

Module Os.

(** [s] without the prefix [p], when it starts with it. *)
Fixpoint strip_prefix (p s : string) : option string :=
  match p, s with
  | EmptyString, _ => Some s
  | String a p', String b s' => if bool_decide (a = b) then strip_prefix p' s' else None
  | String _ _, EmptyString => None
  end.

Fixpoint has_slash (s : string) : bool :=
  match s with
  | EmptyString => false
  | String c rest => bool_decide (c = "/"%char) || has_slash rest
  end.

(** [s.endswith(suffix)] *)
Fixpoint endswith (s suffix : string) : bool :=
  if bool_decide (s = suffix) then true
  else match s with
       | EmptyString => false
       | String _ rest => endswith rest suffix
       end.

(** What [os.path.join(dir, name)] puts ahead of a relative [name]. *)
Definition dir_prefix (dir : string) : string :=
  if bool_decide (dir = EmptyString) || ends_with_slash dir then dir else dir +:+ "/".

(** The name under which a path is an entry of the directory [dir]; the
    directories are flat, a path below a subdirectory is none. *)
Definition entry_name (dir path : string) : option string :=
  match strip_prefix (dir_prefix dir) path with
  | Some name =>
      if bool_decide (name = EmptyString) || has_slash name then None else Some name
  | None => None
  end.

(** [os.listdir(dir)]: the entries in an order the caller has no say in,
    here the one the map enumerates its keys in. *)
Definition listdir {A} (dir : string) (files : gmap string A) : list string :=
  omap (entry_name dir) (map_to_list files).*1.

(** [str(i)] *)
Definition str (i : nat) : string := NilEmpty.string_of_uint (Nat.to_uint i).

(** [l.index(x)] *)
Fixpoint index {A} `{EqDecision A} (l : list A) (x : A) : res nat :=
  match l with
  | [] => Raise ValueError
  | y :: rest =>
      if bool_decide (y = x) then Ok 0%nat
      else match index rest x with
           | Ok i => Ok (S i)
           | Raise e => Raise e
           end
  end.

End Os.

(** A question as the code holds it: a dictionary. *)
Abbreviation qdict := (gmap string pyval).

(** ** Data model *)

Module Quiz.
Record t := mk {
    id : string;
    title : string;
    description : string;
    category : string;
    created_at : string;
    updated_at : string;
    questions : list qdict }.
End Quiz.

Module Session.
Record t := mk {
    id : string;
    quiz_id : string;
    user_id : option string;
    title : string;
    started_at : string;
    completed_at : option string;
    questions : list qdict;
    current_question_index : Z;
    answers : list pyval;
    score : option Z }.

Definition set_questions (s : t) (qs : list qdict) : t :=
    mk (id s) (quiz_id s) (user_id s) (title s) (started_at s)
       (completed_at s) qs (current_question_index s) (answers s) (score s).

Definition set_current_question_index (s : t) (i : Z) : t :=
    mk (id s) (quiz_id s) (user_id s) (title s) (started_at s)
       (completed_at s) (questions s) i (answers s) (score s).

Definition set_completed_at (s : t) (c : option string) : t :=
    mk (id s) (quiz_id s) (user_id s) (title s) (started_at s)
       c (questions s) (current_question_index s) (answers s) (score s).

Definition set_score (s : t) (sc : option Z) : t :=
    mk (id s) (quiz_id s) (user_id s) (title s) (started_at s)
       (completed_at s) (questions s) (current_question_index s) (answers s) sc.
End Session.

Module Card.
Record t := mk {
    id : string;
    front : string;
    back : string;
    tags : list string;
    created_at : string;
    last_reviewed : option string;
    review_count : Z;
    difficulty : Z }.
End Card.

Module FlashcardSet.
Record t := mk {
    id : string;
    title : string;
    description : string;
    created_at : string;
    updated_at : string;
    cards : list Card.t }.
End FlashcardSet.

(** An entry of [list_quizzes]: the quiz with [question_count] added and
    [questions] deleted. *)
Module QuizSummary.
Record t := mk {
    id : string;
    title : string;
    description : string;
    category : string;
    created_at : string;
    updated_at : string;
    question_count : nat }.
End QuizSummary.

(** An entry of [list_sets]. *)
Module SetSummary.
Record t := mk {
    id : string;
    title : string;
    description : string;
    created_at : string;
    updated_at : string;
    card_count : nat }.
End SetSummary.

(** What [FlashcardGame.generate_quiz] builds. *)
Module CardQuestion.
Record t := mk {
    card_id : string;
    question : string;
    answers : list string;
    correct_index : nat }.
End CardQuestion.

Module CardQuiz.
Record t := mk {
    set_id : string;
    set_title : string;
    questions : list CardQuestion.t }.
End CardQuiz.

(** ** The world the methods run in *)

(** Content of a [.json] file: a document [json.load] returns, or bytes
    it raises on. *)
Inductive file (A : Type) :=
| Json (doc : A)
| Unreadable.
Arguments Json {A} doc.
Arguments Unreadable {A}.

(** What the outside answers: the [n]-th reading of the clock, the [n]-th
    identifier of [uuid.uuid4], and the [n]-th draw of [random], an order
    on the positions of a population of the given size. *)
Record Env := {
  clock : nat → string;
  uuid_src : nat → string;
  rand_src : nat → nat → list nat }.

(** Both storage directories (files by path) and the number of readings
    made so far of each source of [Env]. *)
Record World := mkWorld {
  quiz_files : gmap string (file Quiz.t);
  set_files : gmap string (file FlashcardSet.t);
  ticks : nat;
  uuids : nat;
  draws : nat }.

(** A computation over a state [S] that returns or raises; what it wrote
    before raising stays written. *)
Definition St (S A : Type) : Type := S → res A * S.

#[export] Instance St_ret {S} : MRet (St S) := λ A a st, (Ok a, st).

#[export] Instance St_bind {S} : MBind (St S) := λ A B f m st,
  match m st with
  | (Ok a, st') => f a st'
  | (Raise e, st') => (Raise e, st')
  end.

Definition lift {S A} (r : res A) : St S A := λ st, (r, st).

(** The methods run over the world. *)
Abbreviation M := (St World).

(** [answer_question] writes into the session dictionary its caller passed:
    a call runs over that object and the world. *)
Abbreviation Call := (St (Session.t * World)).

Definition in_world {A} (m : M A) : Call A := λ st,
  let '(r, w) := m st.2 in (r, (st.1, w)).

Definition the_session : Call Session.t := λ st, (Ok st.1, st).

Definition update_session (f : Session.t → Session.t) : Call unit := λ st,
  (Ok tt, (f st.1, st.2)).

Section Sources.
Context (env : Env).

(** [datetime.now().isoformat()] *)
Definition now : M string := λ w,
    (Ok (clock env (ticks w)),
     mkWorld (quiz_files w) (set_files w) (S (ticks w)) (uuids w) (draws w)).

(** [str(uuid.uuid4())] *)
Definition uuid4 : M string := λ w,
    (Ok (uuid_src env (uuids w)),
     mkWorld (quiz_files w) (set_files w) (ticks w) (S (uuids w)) (draws w)).

(** The elements of [l] in the order of one draw. *)
Definition pick {A} (l : list A) (order : list nat) : list A :=
    omap (λ i, l !! i) order.

(** [random.shuffle(l)], giving the reordered list. *)
Definition random_shuffle {A} (l : list A) : M (list A) := λ w,
    (Ok (pick l (rand_src env (draws w) (length l))),
     mkWorld (quiz_files w) (set_files w) (ticks w) (uuids w) (S (draws w))).

(** [random.sample(l, k)]: [k] elements at distinct positions, in
      random order. *)
Definition random_sample {A} (l : list A) (k : nat) : M (list A) :=
    shuffled ← random_shuffle l; mret (take k shuffled).
End Sources.

(** ** [class QuizGame] *)

Module QuizGame.

(** [self]: the logger plays no part in what the methods return. *)
Record t := { storage_dir : string }.

(** The redaction loop of [create_quiz_session], on one question. *)
Definition blank_answer (question : qdict) : qdict :=
  <["is_correct" := PNone]> (<["user_answer_index" := PNone]> question).

(** The search loop of [answer_question]:
    [for q in quiz["questions"]: if q["id"] == question["id"]: ... break].
    A dictionary it returns holds the key [id], so it is never the empty,
    falsy one. *)
Fixpoint find_original (questions : list qdict) (question : qdict)
  : res (option qdict) :=
  match questions with
  | [] => Ok None
  | q :: rest =>
      match getkey q "id" with
      | Raise e => Raise e
      | Ok a =>
          match getkey question "id" with
          | Raise e => Raise e
          | Ok b => if py_eqb a b then Ok (Some q) else find_original rest question
          end
      end
  end.

(** [sum(1 for q in questions if q.get("is_correct", False))] *)
Definition correct_count (questions : list qdict) : nat :=
  length (filter (λ q, truthy (default (PBool false) (q !! "is_correct")) = true) questions).

Section Methods.
Context (env : Env) (self : t).

Definition quiz_path (quiz_id : string) : string :=
  path_join (storage_dir self) (quiz_id +:+ ".json").

(** [_save_quiz]: the whole file is overwritten. *)
Definition _save_quiz (quiz : Quiz.t) : M unit := λ w,
  (Ok tt,
   mkWorld (<[quiz_path (Quiz.id quiz) := Json quiz]> (quiz_files w))
           (set_files w) (ticks w) (uuids w) (draws w)).

Definition create_quiz (title description category : string) : M Quiz.t :=
  quiz_id ← uuid4 env;
  created ← now env;
  updated ← now env;
  let quiz := Quiz.mk quiz_id title description category created updated [] in
  _ ← _save_quiz quiz;
  mret quiz.

(** A missing file gives [None]; so does a file [json.load] raises on,
    through the [except] clause. *)
Definition get_quiz (quiz_id : string) : M (option Quiz.t) := λ w,
  match quiz_files w !! quiz_path quiz_id with
  | None => (Ok None, w)
  | Some (Json quiz) => (Ok (Some quiz), w)
  | Some Unreadable => (Ok None, w)
  end.

Definition add_question (quiz_id question_text : string) (answers : list string)
    (correct_answer_index : Z) (explanation : string) : M (option Quiz.t) :=
  quiz ← get_quiz quiz_id;
  match quiz with
  | None => mret None
  | Some quiz =>
      question_id ← uuid4 env;
      let new_question : qdict :=
        list_to_map [("id", PStr question_id);
                     ("question_text", PStr question_text);
                     ("answers", PList answers);
                     ("correct_answer_index", PInt correct_answer_index);
                     ("explanation", PStr explanation)] in
      updated ← now env;
      let quiz := Quiz.mk (Quiz.id quiz) (Quiz.title quiz) (Quiz.description quiz)
                          (Quiz.category quiz) (Quiz.created_at quiz) updated
                          (Quiz.questions quiz ++ [new_question]) in
      _ ← _save_quiz quiz;
      mret (Some quiz)
  end.

Definition get_random_questions (quiz_id : string) (count : nat) : M (list qdict) :=
  quiz ← get_quiz quiz_id;
  match quiz with
  | None => mret []
  | Some quiz =>
      let questions := Quiz.questions quiz in
      if bool_decide (questions = []) then mret []
      else if (count <? length questions)%nat then random_sample env questions count
      else random_shuffle env questions
  end.

Definition create_quiz_session (quiz_id : string) (user_id : option string)
  : M (option Session.t) :=
  quiz ← get_quiz quiz_id;
  match quiz with
  | None => mret None
  | Some quiz =>
      questions ← get_random_questions quiz_id 5;
      if bool_decide (questions = []) then mret None
      else
        session_id ← uuid4 env;
        started ← now env;
        let session := Session.mk session_id quiz_id user_id (Quiz.title quiz)
                                  started None questions 0 [] None in
        mret (Some (Session.set_questions session
                      (blank_answer <$> Session.questions session)))
  end.

(** [session["questions"][pos][key] = v] *)
Definition set_question_key (pos : nat) (key : string) (v : pyval) (session : Session.t)
  : Session.t :=
  Session.set_questions session
    (alter (λ question : qdict, <[key := v]> question) pos (Session.questions session)).

(** The body of [answer_question], over the session object; [Ok tt] is
    [return session]. *)
Definition answer_question_call (question_index answer_index : Z) : Call unit :=
  session ← the_session;
  if Z.of_nat (length (Session.questions session)) <=? question_index then mret tt
  else
    '(pos, question) ← lift (getitem (Session.questions session) question_index);
    quiz ← in_world (get_quiz (Session.quiz_id session));
    match quiz with
    | None => mret tt
    | Some quiz =>
        original_question ← lift (find_original (Quiz.questions quiz) question);
        match original_question with
        | None => mret tt
        | Some original_question =>
            correct_answer_index ← lift (getkey original_question "correct_answer_index");
            _ ← update_session (set_question_key pos "user_answer_index" (PInt answer_index));
            _ ← update_session (set_question_key pos "is_correct"
                                  (PBool (py_eqb (PInt answer_index) correct_answer_index)));
            _ ← update_session (set_question_key pos "explanation"
                                  (default (PStr "") (original_question !! "explanation")));
            _ ← update_session (λ s, Session.set_current_question_index s (question_index + 1));
            session ← the_session;
            if Z.of_nat (length (Session.questions session))
                 <=? Session.current_question_index session
            then
              completed ← in_world (now env);
              _ ← update_session (λ s, Session.set_completed_at s (Some completed));
              session ← the_session;
              ratio ← lift (truediv (correct_count (Session.questions session))
                                    (length (Session.questions session)));
              score ← lift (round (PrimFloat.mul ratio (float_of_nat 100)));
              update_session (λ s, Session.set_score s (Some score))
            else mret tt
        end
    end.

(** [answer_question(session, question_index, answer_index)] in a world:
    how the call ended, the session as the call left it, and the world. *)
Definition answer_question (session : Session.t) (question_index answer_index : Z)
    (w : World) : res unit * (Session.t * World) :=
  answer_question_call question_index answer_index (session, w).

(** [generate_quiz_from_text]: neither the text nor the count is read. *)
Definition generate_quiz_from_text (title text_content : string) (question_count : Z)
  : M Quiz.t :=
  quiz ← create_quiz title ("Quiz generated from content: " +:+ title) "auto-generated";
  _ ← add_question (Quiz.id quiz)
        "What is the main purpose of this feature?"
        ["To demonstrate quiz functionality";
         "To test your knowledge";
         "To generate real questions from text";
         "To replace human-created quizzes"]
        0
        "This is just a placeholder showing the structure of auto-generated quizzes.";
  mret quiz.

Definition summary (quiz : Quiz.t) : QuizSummary.t :=
  QuizSummary.mk (Quiz.id quiz) (Quiz.title quiz) (Quiz.description quiz)
                 (Quiz.category quiz) (Quiz.created_at quiz) (Quiz.updated_at quiz)
                 (length (Quiz.questions quiz)).

(** [if category and quiz.get("category") != category: continue] *)
Definition filtered_out (category : option string) (quiz : Quiz.t) : bool :=
  match category with
  | None => false
  | Some c => negb (bool_decide (c = EmptyString)) && negb (bool_decide (Quiz.category quiz = c))
  end.

(** The loop of [list_quizzes] over the names [os.listdir] gave.  The
    [try] encloses the whole loop: a file that cannot be loaded ends it,
    and what was gathered so far is returned. *)
Fixpoint list_quizzes_loop (files : gmap string (file Quiz.t)) (names : list string)
    (category : option string) (quizzes : list QuizSummary.t) : list QuizSummary.t :=
  match names with
  | [] => quizzes
  | filename :: rest =>
      if Os.endswith filename ".json" then
        match files !! path_join (storage_dir self) filename with
        | Some (Json quiz) =>
            if filtered_out category quiz
            then list_quizzes_loop files rest category quizzes
            else list_quizzes_loop files rest category (quizzes ++ [summary quiz])
        | Some Unreadable | None => quizzes
        end
      else list_quizzes_loop files rest category quizzes
  end.

Definition list_quizzes (category : option string) : M (list QuizSummary.t) := λ w,
  (Ok (list_quizzes_loop (quiz_files w) (Os.listdir (storage_dir self) (quiz_files w))
                         category []),
   w).

End Methods.
End QuizGame.

(** ** [class FlashcardGame] *)

Module FlashcardGame.

Record t := { storage_dir : string }.

(** The key of the [sorted] call in [get_cards_to_review]. *)
Definition review_key (card : Card.t) : Z * Z * Z :=
  (match Card.last_reviewed card with None => 0 | Some _ => 1 end,
   Card.difficulty card,
   - Card.review_count card).

(** Python's order on tuples of three integers. *)
Definition key_leb (a b : Z * Z * Z) : bool :=
  let '(a1, a2, a3) := a in
  let '(b1, b2, b3) := b in
  if a1 <? b1 then true
  else if b1 <? a1 then false
  else if a2 <? b2 then true
  else if b2 <? a2 then false
  else a3 <=? b3.

(** [sorted(l, key=key)]: ascending and stable, an element staying ahead
    of the later ones with an equal key. *)
Fixpoint insert_by {A} (key : A → Z * Z * Z) (x : A) (l : list A) : list A :=
  match l with
  | [] => [x]
  | y :: rest =>
      if key_leb (key x) (key y) then x :: y :: rest
      else y :: insert_by key x rest
  end.

Definition sorted {A} (key : A → Z * Z * Z) (l : list A) : list A :=
  foldr (insert_by key) [] l.

(** What [record_review] writes into the card it found. *)
Definition reviewed_card (card : Card.t) (reviewed : string) (difficulty : Z) : Card.t :=
  Card.mk (Card.id card) (Card.front card) (Card.back card) (Card.tags card)
          (Card.created_at card) (Some reviewed) (Card.review_count card + 1)
          (Z.max 0 (Z.min 3 difficulty)).

Section Methods.
Context (env : Env) (self : t).

Definition set_path (set_id : string) : string :=
  path_join (storage_dir self) (set_id +:+ ".json").

Definition _save_set (flashcard_set : FlashcardSet.t) : M unit := λ w,
  (Ok tt,
   mkWorld (quiz_files w)
           (<[set_path (FlashcardSet.id flashcard_set) := Json flashcard_set]> (set_files w))
           (ticks w) (uuids w) (draws w)).

Definition create_set (title description : string) : M FlashcardSet.t :=
  set_id ← uuid4 env;
  created ← now env;
  updated ← now env;
  let flashcard_set := FlashcardSet.mk set_id title description created updated [] in
  _ ← _save_set flashcard_set;
  mret flashcard_set.

Definition get_set (set_id : string) : M (option FlashcardSet.t) := λ w,
  match set_files w !! set_path set_id with
  | None => (Ok None, w)
  | Some (Json flashcard_set) => (Ok (Some flashcard_set), w)
  | Some Unreadable => (Ok None, w)
  end.

Definition with_cards (flashcard_set : FlashcardSet.t) (updated : string)
    (cards : list Card.t) : FlashcardSet.t :=
  FlashcardSet.mk (FlashcardSet.id flashcard_set) (FlashcardSet.title flashcard_set)
                  (FlashcardSet.description flashcard_set)
                  (FlashcardSet.created_at flashcard_set) updated cards.

Definition add_card (set_id front back : string) (tags : option (list string))
  : M (option FlashcardSet.t) :=
  flashcard_set ← get_set set_id;
  match flashcard_set with
  | None => mret None
  | Some flashcard_set =>
      card_id ← uuid4 env;
      created ← now env;
      let new_card := Card.mk card_id front back (default [] tags) created None 0 0 in
      updated ← now env;
      let flashcard_set :=
        with_cards flashcard_set updated (FlashcardSet.cards flashcard_set ++ [new_card]) in
      _ ← _save_set flashcard_set;
      mret (Some flashcard_set)
  end.

Definition get_cards_to_review (set_id : string) (count : Z) : M (list Card.t) :=
  flashcard_set ← get_set set_id;
  match flashcard_set with
  | None => mret []
  | Some flashcard_set =>
      let cards := FlashcardSet.cards flashcard_set in
      if bool_decide (cards = []) then mret []
      else mret (slice_to (sorted review_key cards) count)
  end.

(** The loop of [record_review]: the first card with the identifier is
    rewritten, then [break]; the clock is read only when one is found. *)
Fixpoint review_loop (cards : list Card.t) (card_id : string) (difficulty : Z)
  : M (list Card.t) :=
  match cards with
  | [] => mret []
  | card :: rest =>
      if bool_decide (Card.id card = card_id) then
        reviewed ← now env;
        mret (reviewed_card card reviewed difficulty :: rest)
      else
        rest ← review_loop rest card_id difficulty;
        mret (card :: rest)
  end.

Definition record_review (set_id card_id : string) (difficulty : Z)
  : M (option FlashcardSet.t) :=
  flashcard_set ← get_set set_id;
  match flashcard_set with
  | None => mret None
  | Some flashcard_set =>
      cards ← review_loop (FlashcardSet.cards flashcard_set) card_id difficulty;
      updated ← now env;
      let flashcard_set := with_cards flashcard_set updated cards in
      _ ← _save_set flashcard_set;
      mret (Some flashcard_set)
  end.

Definition set_summary (flashcard_set : FlashcardSet.t) : SetSummary.t :=
  SetSummary.mk (FlashcardSet.id flashcard_set) (FlashcardSet.title flashcard_set)
                (FlashcardSet.description flashcard_set)
                (FlashcardSet.created_at flashcard_set)
                (FlashcardSet.updated_at flashcard_set)
                (length (FlashcardSet.cards flashcard_set)).

(** The loop of [list_sets], under its [try] as that of [list_quizzes]. *)
Fixpoint list_sets_loop (files : gmap string (file FlashcardSet.t)) (names : list string)
    (sets : list SetSummary.t) : list SetSummary.t :=
  match names with
  | [] => sets
  | filename :: rest =>
      if Os.endswith filename ".json" then
        match files !! path_join (storage_dir self) filename with
        | Some (Json flashcard_set) =>
            list_sets_loop files rest (sets ++ [set_summary flashcard_set])
        | Some Unreadable | None => sets
        end
      else list_sets_loop files rest sets
  end.

Definition list_sets : M (list SetSummary.t) := λ w,
  (Ok (list_sets_loop (set_files w) (Os.listdir (storage_dir self) (set_files w)) []), w).

(** One turn of the loop of [generate_quiz], over the shuffled [cards]. *)
Definition card_question (cards : list Card.t) (card : Card.t) : M CardQuestion.t :=
  let correct_answer := Card.back card in
  let potential_distractors :=
    Card.back <$> filter (λ c, Card.id c ≠ Card.id card) cards in
  distractors ←
    (if (3 <=? length potential_distractors)%nat
     then random_sample env potential_distractors 3
     else mret (potential_distractors
                  ++ ((λ i, "Incorrect answer " +:+ Os.str i)
                        <$> seq 0 (3 - length potential_distractors))));
  answers ← random_shuffle env (distractors ++ [correct_answer]);
  correct_index ← lift (Os.index answers correct_answer);
  mret (CardQuestion.mk (Card.id card) (Card.front card) answers correct_index).

Fixpoint card_questions (cards quiz_cards : list Card.t) : M (list CardQuestion.t) :=
  match quiz_cards with
  | [] => mret []
  | card :: rest =>
      question ← card_question cards card;
      questions ← card_questions cards rest;
      mret (question :: questions)
  end.

Definition generate_quiz (set_id : string) (count : Z) : M (option CardQuiz.t) :=
  flashcard_set ← get_set set_id;
  match flashcard_set with
  | None => mret None
  | Some flashcard_set =>
      if bool_decide (FlashcardSet.cards flashcard_set = [])
         || (length (FlashcardSet.cards flashcard_set) <? 2)%nat
      then mret None
      else
        cards ← random_shuffle env (FlashcardSet.cards flashcard_set);
        let quiz_cards := slice_to cards (Z.min count (Z.of_nat (length cards))) in
        questions ← card_questions cards quiz_cards;
        mret (Some (CardQuiz.mk set_id (FlashcardSet.title flashcard_set) questions))
  end.

End Methods.
End FlashcardGame.

(** ** Concrete inputs the statements below are run on *)

Module Sample.

Fixpoint tally (n : nat) : string :=
  match n with
  | O => ""
  | S k => "i" +:+ tally k
  end.

(** A clock, an identifier source and draws that keep the stored order. *)
Definition env : Env :=
  {| clock := λ n, "t" +:+ tally n;
     uuid_src := λ n, "u" +:+ tally n;
     rand_src := λ _ n, seq 0 n |}.

Definition quiz_game : QuizGame.t := {| QuizGame.storage_dir := "./data/quizzes" |}.

Definition flashcard_game : FlashcardGame.t :=
  {| FlashcardGame.storage_dir := "./data/flashcards" |}.

Definition empty_world : World := mkWorld ∅ ∅ 0 0 0.

(** A stored question, as [add_question] writes it. *)
Definition question (question_id : string) (correct_answer_index : Z) : qdict :=
  list_to_map [("id", PStr question_id);
               ("question_text", PStr "2 + 2 = ?");
               ("answers", PList ["3"; "4"]);
               ("correct_answer_index", PInt correct_answer_index);
               ("explanation", PStr "sum")].

Definition quiz_of (questions : list qdict) : Quiz.t :=
  Quiz.mk "bank" "Sums" "" "math" "t0" "t0" questions.

Definition world_of (questions : list qdict) : World :=
  mkWorld {[ "./data/quizzes/bank.json" := Json (quiz_of questions) ]} ∅ 0 0 0.

(** A session over the given questions, as a client holds it. *)
Definition session_of (questions : list qdict) : Session.t :=
  Session.mk "s" "bank" None "Sums" "t0" None questions 0 [] None.

Definition two_questions : list qdict := [question "a" 1; question "b" 0].

(** The session [create_quiz_session] draws from [two_questions] under
    [env], and the world it leaves. *)
Definition drawn_session : Session.t :=
  Session.mk "u" "bank" None "Sums" "t" None
             (QuizGame.blank_answer <$> two_questions) 0 [] None.

Definition world_after_draw : World :=
  mkWorld (quiz_files (world_of two_questions)) ∅ 1 1 1.

(** A bank of forty questions, the second answer being the right one, and
    a session over it in which the first 22 were answered right, the next
    17 wrong, and the last one is still open. *)
Definition numbered (i : nat) : qdict := question ("q" +:+ tally i) 1.

Definition forty : list qdict := numbered <$> seq 0 40.

Definition graded (answer_index : Z) (question : qdict) : qdict :=
  <["is_correct" := PBool (answer_index =? 1)]>
    (<["user_answer_index" := PInt answer_index]> question).

Definition forty_session : Session.t :=
  Session.mk "s" "bank" None "Sums" "t0" None
             ((graded 1 <$> take 22 forty) ++ (graded 0 <$> take 17 (drop 22 forty))
                ++ (QuizGame.blank_answer <$> drop 39 forty))
             39 [] None.

(** The cards of the review-order example: [A] never reviewed, difficulty
    1; [B] reviewed, difficulty 3; [C] reviewed, difficulty 0. *)
Definition card (card_id : string) (last_reviewed : option string)
    (review_count difficulty : Z) : Card.t :=
  Card.mk card_id "front" "back" [] "t0" last_reviewed review_count difficulty.

Definition card_A : Card.t := card "A" None 0 1.
Definition card_B : Card.t := card "B" (Some "t1") 1 3.
Definition card_C : Card.t := card "C" (Some "t1") 1 0.

(** A fourth card, as [C] but reviewed five times. *)
Definition card_D : Card.t := card "D" (Some "t1") 5 0.

Definition set_of (cards : list Card.t) : FlashcardSet.t :=
  FlashcardSet.mk "deck" "Deck" "" "t0" "t0" cards.

Definition world_of_cards (cards : list Card.t) : World :=
  mkWorld ∅ {[ "./data/flashcards/deck.json" := Json (set_of cards) ]} 0 0 0.

(** A quiz directory with one file that does not load and one that does,
    and one with two banks of different categories. *)
Definition world_with_unreadable : World :=
  mkWorld {[ "./data/quizzes/a.json" := Unreadable;
             "./data/quizzes/b.json" := Json (quiz_of two_questions) ]} ∅ 0 0 0.

Definition history_quiz : Quiz.t := Quiz.mk "h" "Dates" "" "history" "t0" "t0" [].

Definition world_with_two_banks : World :=
  mkWorld {[ "./data/quizzes/bank.json" := Json (quiz_of two_questions);
             "./data/quizzes/h.json" := Json history_quiz ]} ∅ 0 0 0.

End Sample.

(** ** Properties the specification states, as predicates *)

(** "[correct_answer_index] ∈ [0, len(answers))" on a stored question. *)
Definition valid_question (question : qdict) : Prop :=
  ∃ (index : Z) (answers : list string),
    question !! "correct_answer_index" = Some (PInt index) ∧
    question !! "answers" = Some (PList answers) ∧
    0 ≤ index < Z.of_nat (length answers).

(** A session question as [create_quiz_session] should hand it out:
    nothing answered yet. *)
Definition unanswered (question : qdict) : Prop :=
  question !! "user_answer_index" = Some PNone ∧
  question !! "is_correct" = Some PNone.

(** "[round(100 * C / N)]" on the exact quotient: the nearest integer,
    a tie going to the even one as Python's [round] does. *)
Definition round_percent (c n : nat) : Z :=
  let num := 100 * Z.of_nat c in
  let q := num / Z.of_nat n in
  let r := num mod Z.of_nat n in
  if 2 * r <? Z.of_nat n then q
  else if Z.of_nat n <? 2 * r then q + 1
  else if Z.even q then q else q + 1.

(** ** What a call of [answer_question] leaves *)

(** The session after the four assignments that record an answer. *)
Definition recorded (session : Session.t) (pos : nat) (question_index answer_index : Z)
    (original_question : qdict) (correct_answer_index : pyval) : Session.t :=
  Session.set_current_question_index
    (QuizGame.set_question_key pos "explanation"
       (default (PStr "") (original_question !! "explanation"))
       (QuizGame.set_question_key pos "is_correct"
          (PBool (py_eqb (PInt answer_index) correct_answer_index))
          (QuizGame.set_question_key pos "user_answer_index" (PInt answer_index) session)))
    (question_index + 1).

(** [round((c / n) * 100)] *)
Definition percent (c n : nat) : res Z :=
  match truediv c n with
  | Ok ratio => round (PrimFloat.mul ratio (float_of_nat 100))
  | Raise e => Raise e
  end.

Definition percent_is (c n : nat) (z : Z) : bool :=
  match percent c n with
  | Ok v => v =? z
  | Raise _ => false
  end.

Definition tick (w : World) : World :=
  mkWorld (quiz_files w) (set_files w) (S (ticks w)) (uuids w) (draws w).

(** No question of the bank carries the identifier. *)
Definition unmatched (identifier : pyval) (questions : list qdict) : Prop :=
  Forall (λ q : qdict, ∃ a, q !! "id" = Some a ∧ py_eqb a identifier = false) questions.

(** Whether [percent] gives the nearest integer of the exact quotient for
    every count of right answers in every session of 1 to [bound]
    questions. *)
Definition agrees_up_to (bound : nat) : bool :=
  forallb (λ n, forallb (λ c, percent_is c n (round_percent c n)) (seq 0 (S n)))
          (seq 1 bound).

(** The order the specification states for the review selector: never
    reviewed first, then the higher difficulty, then the lower review
    count. *)
Definition stated_before (a b : Card.t) : bool :=
  FlashcardGame.key_leb
    (match Card.last_reviewed a with None => 0 | Some _ => 1 end,
     - Card.difficulty a, Card.review_count a)
    (match Card.last_reviewed b with None => 0 | Some _ => 1 end,
     - Card.difficulty b, Card.review_count b).

(** The draws are orders on the positions of the population, as those
    behind [random.shuffle] and [random.sample] are. *)
Definition fair (env : Env) : Prop := ∀ d n, rand_src env d n ≡ₚ seq 0 n.

(** Every [.json] entry of the quiz directory loads. *)
Definition quizzes_readable (self : QuizGame.t) (w : World) : Prop :=
  ∀ name, name ∈ Os.listdir (QuizGame.storage_dir self) (quiz_files w) →
          Os.endswith name ".json" = true →
          quiz_files w !! path_join (QuizGame.storage_dir self) name ≠ Some Unreadable.

(** A session question that does not count as answered right. *)
Definition not_counted (question : qdict) : Prop :=
  truthy (default (PBool false) (question !! "is_correct")) = false.

(** ** The monad's equations *)

Lemma bind_ok {S A B} (m : St S A) (f : A → St S B) st a st' :
  m st = (Ok a, st') → (m ≫= f) st = f a st'.
Proof. intros H. unfold mbind, St_bind. by rewrite H. Qed.

Lemma bind_raise {S A B} (m : St S A) (f : A → St S B) st e st' :
  m st = (Raise e, st') → (m ≫= f) st = (Raise e, st').
Proof. intros H. unfold mbind, St_bind. by rewrite H. Qed.

Ltac run :=
  cbv beta iota zeta delta
    [mbind St_bind mret St_ret lift in_world the_session update_session
     now uuid4 fst snd].

(** ** The question bank store *)

Section QuizStore.
Context (env : Env) (self : QuizGame.t).

Lemma get_quiz_keeps_world quiz_id w :
  (QuizGame.get_quiz self quiz_id w).2 = w.
Proof.
  unfold QuizGame.get_quiz.
  destruct (quiz_files w !! _) as [[]|]; reflexivity.
Qed.

Lemma get_quiz_stored quiz_id w quiz :
  quiz_files w !! QuizGame.quiz_path self quiz_id = Some (Json quiz) →
  QuizGame.get_quiz self quiz_id w = (Ok (Some quiz), w).
Proof. intros H. unfold QuizGame.get_quiz. by rewrite H. Qed.

(** C7. [get_quiz] on the identifier of the quiz [create_quiz] returned
    gives a quiz with the same title, description and category and no
    question: the file written is the file read. *)
Theorem create_quiz_then_get_quiz title description category w :
  ∃ quiz w' stored,
    QuizGame.create_quiz env self title description category w = (Ok quiz, w') ∧
    QuizGame.get_quiz self (Quiz.id quiz) w' = (Ok (Some stored), w') ∧
    Quiz.title stored = title ∧
    Quiz.description stored = description ∧
    Quiz.category stored = category ∧
    Quiz.questions stored = [].
Proof.
  unfold QuizGame.create_quiz. run.
  eexists _, _, _. split; [reflexivity|].
  split; [apply get_quiz_stored; simpl; apply lookup_insert_eq | done].
Qed.

(** What [add_question] appends holds the index it was given, and the
    answers it was given. *)
Lemma add_question_result quiz_id question_text answers index explanation w quiz :
  QuizGame.get_quiz self quiz_id w = (Ok (Some quiz), w) →
  ∃ quiz' w' new_question,
    QuizGame.add_question env self quiz_id question_text answers index explanation w
      = (Ok (Some quiz'), w') ∧
    quiz_files w' !! QuizGame.quiz_path self (Quiz.id quiz) = Some (Json quiz') ∧
    Quiz.questions quiz' = Quiz.questions quiz ++ [new_question] ∧
    new_question !! "correct_answer_index" = Some (PInt index) ∧
    new_question !! "answers" = Some (PList answers).
Proof.
  intros Hget. unfold QuizGame.add_question.
  rewrite (bind_ok _ _ _ _ _ Hget). run.
  eexists _, _, _. split; [reflexivity|].
  split; [apply lookup_insert_eq|].
  split; [reflexivity|]. split; reflexivity.
Qed.

(** C4, as the code has it. [add_question] stores the index it is given
    and checks nothing: when that index lies in [0, len(answers)), the
    question appended to the resolved bank holds a valid index, and a bank
    whose questions all held one still does, in the file too. *)
Theorem add_question_keeps_valid_index
    quiz_id question_text answers index explanation w quiz :
  QuizGame.get_quiz self quiz_id w = (Ok (Some quiz), w) →
  Forall valid_question (Quiz.questions quiz) →
  0 ≤ index < Z.of_nat (length answers) →
  ∃ quiz' w' new_question,
    QuizGame.add_question env self quiz_id question_text answers index explanation w
      = (Ok (Some quiz'), w') ∧
    quiz_files w' !! QuizGame.quiz_path self (Quiz.id quiz) = Some (Json quiz') ∧
    Quiz.questions quiz' = Quiz.questions quiz ++ [new_question] ∧
    new_question !! "correct_answer_index" = Some (PInt index) ∧
    valid_question new_question ∧
    Forall valid_question (Quiz.questions quiz').
Proof.
  intros Hget Hall Hrange.
  destruct (add_question_result quiz_id question_text answers index explanation w quiz Hget)
    as (quiz' & w' & new_question & Hrun & Hfile & Hqs & Hidx & Hans).
  assert (valid_question new_question) as Hnew by (exists index, answers; done).
  exists quiz', w', new_question. repeat split; try done.
  rewrite Hqs. apply Forall_app. split; [done|]. by constructor.
Qed.

End QuizStore.

(** C4, as stated, fails: with two answers and the index 5, the bank
    resolves and the question is stored with the index 5. *)
Lemma add_question_stores_invalid_index :
  ∃ quiz w',
    QuizGame.add_question Sample.env Sample.quiz_game "bank" "q" ["a"; "b"] 5 ""
      (Sample.world_of []) = (Ok (Some quiz), w') ∧
    quiz_files w' !! "./data/quizzes/bank.json" = Some (Json quiz) ∧
    ¬ Forall valid_question (Quiz.questions quiz).
Proof.
  eexists _, _. split; [vm_compute; reflexivity|]. split; [vm_compute; reflexivity|].
  intros Hall. apply Forall_inv in Hall.
  destruct Hall as (index & answers & Hidx & Hans & Hrange).
  vm_compute in Hidx, Hans. simplify_eq. simpl in Hrange. lia.
Qed.

Lemma add_question_keeps_valid_index_witness :
  ∃ quiz' w' new_question,
    QuizGame.add_question Sample.env Sample.quiz_game "bank" "q" ["a"; "b"] 1 ""
      (Sample.world_of [Sample.question "a" 0]) = (Ok (Some quiz'), w') ∧
    quiz_files w' !! QuizGame.quiz_path Sample.quiz_game "bank" = Some (Json quiz') ∧
    Quiz.questions quiz' = [Sample.question "a" 0] ++ [new_question] ∧
    new_question !! "correct_answer_index" = Some (PInt 1) ∧
    valid_question new_question ∧
    Forall valid_question (Quiz.questions quiz').
Proof.
  apply (add_question_keeps_valid_index Sample.env Sample.quiz_game "bank" "q" ["a"; "b"] 1 ""
           (Sample.world_of [Sample.question "a" 0])
           (Sample.quiz_of [Sample.question "a" 0])).
  - reflexivity.
  - constructor; [|constructor]. exists 0, ["3"; "4"].
    split; [reflexivity|]. split; [reflexivity|]. simpl. lia.
  - simpl. lia.
Defined.

(** ** Quiz sessions *)

Section QuizSessions.
Context (env : Env) (self : QuizGame.t).

Lemma pick_subset {A} (l : list A) order x : x ∈ pick l order → x ∈ l.
Proof.
  unfold pick. rewrite list_elem_of_omap. intros (i & _ & Hi).
  by eapply list_elem_of_lookup_2.
Qed.

(** [get_random_questions] never raises, and draws from the stored bank. *)
Lemma get_random_questions_spec quiz_id count w :
  ∃ questions w',
    QuizGame.get_random_questions env self quiz_id count w = (Ok questions, w') ∧
    (questions = [] ∨
     ∃ quiz, QuizGame.get_quiz self quiz_id w = (Ok (Some quiz), w) ∧
             questions ⊆ Quiz.questions quiz).
Proof.
  unfold QuizGame.get_random_questions, QuizGame.get_quiz. run.
  destruct (quiz_files w !! _) as [[quiz|]|]; simpl; eauto.
  case_bool_decide; [eauto|].
  destruct (count <? length (Quiz.questions quiz))%nat.
  - unfold random_sample, random_shuffle. run.
    eexists _, _. split; [reflexivity|]. right. exists quiz. split; [done|].
    intros x Hx. apply elem_of_take in Hx as (i & Hx & _).
    apply list_elem_of_lookup_2 in Hx. by eapply pick_subset.
  - unfold random_shuffle.
    eexists _, _. split; [reflexivity|]. right. exists quiz. split; [done|].
    intros x Hx. by eapply pick_subset.
Qed.

(** The questions of a new session are those drawn, each with the two
    answer keys set to [None] and every other key as stored. *)
Lemma create_quiz_session_questions quiz_id user_id w session w' :
  QuizGame.create_quiz_session env self quiz_id user_id w = (Ok (Some session), w') →
  ∃ quiz questions,
    QuizGame.get_quiz self quiz_id w = (Ok (Some quiz), w) ∧
    questions ≠ [] ∧
    questions ⊆ Quiz.questions quiz ∧
    Session.questions session = QuizGame.blank_answer <$> questions.
Proof.
  unfold QuizGame.create_quiz_session. intros Hrun.
  destruct (QuizGame.get_quiz self quiz_id w) as [r w0] eqn:Hget.
  pose proof (get_quiz_keeps_world self quiz_id w) as Hw. rewrite Hget in Hw. simpl in Hw. subst w0.
  destruct r as [[quiz|]|e];
    [rewrite (bind_ok _ _ _ _ _ Hget) in Hrun
    |by rewrite (bind_ok _ _ _ _ _ Hget) in Hrun
    |by rewrite (bind_raise _ _ _ _ _ Hget) in Hrun].
  destruct (get_random_questions_spec quiz_id 5 w) as (questions & w1 & Hdraw & Hsub).
  rewrite (bind_ok _ _ _ _ _ Hdraw) in Hrun.
  case_bool_decide as Hnil; [by inversion Hrun|].
  revert Hrun. run. intros Hrun. simplify_eq. simpl.
  destruct Hsub as [?|(quiz' & Hget' & Hsub)]; [done|].
  rewrite Hget in Hget'. simplify_eq.
  by exists quiz', questions.
Qed.

(** C8. Every question of a session [create_quiz_session] returns has
    [user_answer_index] and [is_correct] set to [None]. *)
Theorem create_quiz_session_unanswered quiz_id user_id w session w' :
  QuizGame.create_quiz_session env self quiz_id user_id w = (Ok (Some session), w') →
  Forall unanswered (Session.questions session).
Proof.
  intros Hrun.
  apply create_quiz_session_questions in Hrun as (quiz & questions & _ & _ & _ & ->).
  apply Forall_fmap, Forall_true. intros question.
  unfold unanswered, QuizGame.blank_answer. simpl.
  split; by simplify_map_eq.
Qed.

(** The redaction loop leaves the key of the correct answer in place. *)
Lemma blank_answer_keeps_correct_answer_index (question : qdict) :
  QuizGame.blank_answer question !! "correct_answer_index"
  = question !! "correct_answer_index".
Proof. unfold QuizGame.blank_answer. by simplify_map_eq. Qed.

End QuizSessions.

Lemma create_quiz_session_unanswered_witness :
  Forall unanswered (Session.questions Sample.drawn_session).
Proof.
  apply (create_quiz_session_unanswered Sample.env Sample.quiz_game "bank" None
           (Sample.world_of Sample.two_questions) Sample.drawn_session
           Sample.world_after_draw).
  vm_compute. reflexivity.
Defined.

(** C1, on the code. A bank with one question whose right answer is the
    second: the session [create_quiz_session] returns holds that question
    unanswered and with its key [correct_answer_index] still 1.  The loop
    under the comment "Remove correct answer indices to avoid cheating"
    sets two keys and removes none. *)
Theorem create_quiz_session_exposes_correct_answer_index :
  ∃ session w' question,
    QuizGame.create_quiz_session Sample.env Sample.quiz_game "bank" None
      (Sample.world_of [Sample.question "a" 1]) = (Ok (Some session), w') ∧
    Session.questions session = [question] ∧
    unanswered question ∧
    question !! "correct_answer_index" = Some (PInt 1).
Proof.
  eexists _, _, _. split; [vm_compute; reflexivity|].
  split; [reflexivity|]. split; [split|]; vm_compute; reflexivity.
Qed.

(** ** Answering *)

Section Answering.
Context (env : Env) (self : QuizGame.t).

(** The guard of [answer_question]: an index at or past the end. *)
Lemma answer_question_past_end session question_index answer_index w :
  Z.of_nat (length (Session.questions session)) ≤ question_index →
  QuizGame.answer_question env self session question_index answer_index w
  = (Ok tt, (session, w)).
Proof.
  intros Hge. unfold QuizGame.answer_question, QuizGame.answer_question_call. run.
  apply Z.leb_le in Hge. by rewrite Hge.
Qed.

Lemma set_question_key_length pos key v session :
  length (Session.questions (QuizGame.set_question_key pos key v session))
  = length (Session.questions session).
Proof. unfold QuizGame.set_question_key. simpl. apply length_alter. Qed.

Lemma recorded_length session pos question_index answer_index original cai :
  length (Session.questions (recorded session pos question_index answer_index original cai))
  = length (Session.questions session).
Proof. unfold recorded. simpl. by rewrite !length_alter. Qed.

(** A call that finds the question in the bank: the answer is recorded;
    when the index moves to the end, the time is stamped and the score is
    computed, the stamp staying should the rounding raise. *)
Lemma answer_question_resolved session question_index answer_index w
    pos question quiz original cai :
  question_index < Z.of_nat (length (Session.questions session)) →
  getitem (Session.questions session) question_index = Ok (pos, question) →
  QuizGame.get_quiz self (Session.quiz_id session) w = (Ok (Some quiz), w) →
  QuizGame.find_original (Quiz.questions quiz) question = Ok (Some original) →
  original !! "correct_answer_index" = Some cai →
  QuizGame.answer_question env self session question_index answer_index w =
    let after := recorded session pos question_index answer_index original cai in
    if Z.of_nat (length (Session.questions session)) <=? question_index + 1 then
      let stamped := Session.set_completed_at after (Some (clock env (ticks w))) in
      match percent (QuizGame.correct_count (Session.questions after))
                    (length (Session.questions after)) with
      | Ok score => (Ok tt, (Session.set_score stamped (Some score), tick w))
      | Raise e => (Raise e, (stamped, tick w))
      end
    else (Ok tt, (after, w)).
Proof.
  intros Hlt Hitem Hquiz Hfind Hcai.
  unfold QuizGame.answer_question, QuizGame.answer_question_call. run.
  apply Z.leb_gt in Hlt. rewrite Hlt, Hitem. run. rewrite Hquiz. run. rewrite Hfind. run.
  unfold getkey. rewrite Hcai. run.
  fold (recorded session pos question_index answer_index original cai).
  set (after := recorded session pos question_index answer_index original cai).
  replace (Session.current_question_index after) with (question_index + 1) by reflexivity.
  rewrite <- (recorded_length session pos question_index answer_index original cai).
  fold after.
  destruct (_ <=? question_index + 1); [|reflexivity].
  run. unfold percent, tick. cbn [Session.questions Session.set_completed_at].
  destruct (truediv _ _) as [ratio|e]; [|reflexivity].
  by destruct (round _).
Qed.

Lemma getitem_in_range {A} (l : list A) (i : Z) x :
  0 ≤ i → l !! Z.to_nat i = Some x → getitem l i = Ok (Z.to_nat i, x).
Proof.
  intros Hi Hx. unfold getitem.
  apply Z.leb_le in Hi as Hi'. rewrite Hi'.
  assert ((i <? 0) = false) as -> by (by apply Z.ltb_ge).
  by rewrite Hx.
Qed.

Lemma find_original_unmatched questions (question : qdict) identifier :
  question !! "id" = Some identifier →
  unmatched identifier questions →
  QuizGame.find_original questions question = Ok None.
Proof.
  intros Hid. induction 1 as [|q rest (a & Ha & Hne) _ IH]; [done|].
  simpl. unfold getkey. by rewrite Ha, Hid, Hne.
Qed.

(** The search reads the session question's identifier and nothing else. *)
Lemma find_original_same_id questions (question question' : qdict) :
  question !! "id" = question' !! "id" →
  QuizGame.find_original questions question
  = QuizGame.find_original questions question'.
Proof.
  intros Hid. induction questions as [|q rest IH]; [done|].
  simpl. unfold getkey. rewrite Hid, IH. done.
Qed.

(** C10. With the index in range, a call whose bank does not resolve, or
    whose bank holds no question with the session question's identifier,
    returns the session as it was, and the world with it. *)
Theorem answer_question_unresolved session question_index answer_index w :
  0 ≤ question_index < Z.of_nat (length (Session.questions session)) →
  ((QuizGame.get_quiz self (Session.quiz_id session) w).1 = Ok None ∨
   ∃ quiz question identifier,
     QuizGame.get_quiz self (Session.quiz_id session) w = (Ok (Some quiz), w) ∧
     Session.questions session !! Z.to_nat question_index = Some question ∧
     question !! "id" = Some identifier ∧
     unmatched identifier (Quiz.questions quiz)) →
  QuizGame.answer_question env self session question_index answer_index w
  = (Ok tt, (session, w)).
Proof.
  intros [Hlo Hhi] Hfail.
  destruct (lookup_lt_is_Some_2 (Session.questions session) (Z.to_nat question_index))
    as [item Hitem]; [lia|].
  unfold QuizGame.answer_question, QuizGame.answer_question_call. run.
  apply Z.leb_gt in Hhi. rewrite Hhi, (getitem_in_range _ _ _ Hlo Hitem). run.
  pose proof (get_quiz_keeps_world self (Session.quiz_id session) w) as Hw.
  destruct Hfail as [Hnone|(quiz & question & identifier & Hquiz & Hq & Hid & Hunm)].
  - destruct (QuizGame.get_quiz self (Session.quiz_id session) w) as [r w0].
    simpl in *. by subst.
  - rewrite Hquiz. run. simplify_eq.
    by rewrite (find_original_unmatched _ _ _ Hid Hunm).
Qed.

(** The questions of [recorded]: the one at [pos] with its three keys
    written, the others as they were. *)
Lemma recorded_lookup session pos question_index answer_index original cai question :
  Session.questions session !! pos = Some question →
  Session.questions (recorded session pos question_index answer_index original cai) !! pos
  = Some (<["explanation" := default (PStr "") (original !! "explanation")]>
            (<["is_correct" := PBool (py_eqb (PInt answer_index) cai)]>
               (<["user_answer_index" := PInt answer_index]> question))).
Proof.
  intros Hq. unfold recorded, QuizGame.set_question_key. simpl.
  by rewrite !list_lookup_alter_eq, Hq.
Qed.

Lemma recorded_lookup_other session pos question_index answer_index original cai j :
  j ≠ pos →
  Session.questions (recorded session pos question_index answer_index original cai) !! j
  = Session.questions session !! j.
Proof.
  intros Hne. unfold recorded, QuizGame.set_question_key. simpl.
  by rewrite !list_lookup_alter_ne.
Qed.

Lemma get_quiz_same_files quiz_id w w' quiz :
  quiz_files w' = quiz_files w →
  QuizGame.get_quiz self quiz_id w = (Ok (Some quiz), w) →
  QuizGame.get_quiz self quiz_id w' = (Ok (Some quiz), w').
Proof.
  unfold QuizGame.get_quiz. intros ->.
  destruct (quiz_files w !! _) as [[]|]; intros; by simplify_eq.
Qed.

(** What every resolved call leaves, whether or not it ends the session:
    the questions and the progress of [recorded], the same bank reference,
    the same files; short of the end it returns [recorded] itself. *)
Lemma answer_question_resolved_state session question_index answer_index w
    pos question quiz original cai :
  question_index < Z.of_nat (length (Session.questions session)) →
  getitem (Session.questions session) question_index = Ok (pos, question) →
  QuizGame.get_quiz self (Session.quiz_id session) w = (Ok (Some quiz), w) →
  QuizGame.find_original (Quiz.questions quiz) question = Ok (Some original) →
  original !! "correct_answer_index" = Some cai →
  ∃ r session' w',
    QuizGame.answer_question env self session question_index answer_index w
      = (r, (session', w')) ∧
    Session.questions session'
      = Session.questions (recorded session pos question_index answer_index original cai) ∧
    Session.current_question_index session' = question_index + 1 ∧
    Session.quiz_id session' = Session.quiz_id session ∧
    quiz_files w' = quiz_files w ∧
    (question_index + 1 < Z.of_nat (length (Session.questions session)) →
     r = Ok tt ∧ w' = w ∧
     session' = recorded session pos question_index answer_index original cai).
Proof.
  intros Hlt Hitem Hquiz Hfind Hcai.
  rewrite (answer_question_resolved _ _ _ _ _ _ _ _ _ Hlt Hitem Hquiz Hfind Hcai).
  cbv zeta. destruct (_ <=? question_index + 1) eqn:Hend.
  - apply Z.leb_le in Hend.
    destruct (percent _ _); eexists _, _, _; (split; [reflexivity|]);
      repeat split; try done; lia.
  - eexists _, _, _. split; [reflexivity|]. repeat split; done.
Qed.

(** C6. Two calls on one in-range index whose question the bank resolves:
    after the second, that question holds the second answer and its
    correctness, the progress is the index plus one, and the other
    questions are as they were before the first. *)
Theorem answer_question_twice session question_index first second w
    question quiz original cai :
  0 ≤ question_index < Z.of_nat (length (Session.questions session)) →
  Session.questions session !! Z.to_nat question_index = Some question →
  QuizGame.get_quiz self (Session.quiz_id session) w = (Ok (Some quiz), w) →
  QuizGame.find_original (Quiz.questions quiz) question = Ok (Some original) →
  original !! "correct_answer_index" = Some cai →
  ∃ r1 session1 w1 r2 session2 w2 question2,
    QuizGame.answer_question env self session question_index first w
      = (r1, (session1, w1)) ∧
    QuizGame.answer_question env self session1 question_index second w1
      = (r2, (session2, w2)) ∧
    Session.questions session2 !! Z.to_nat question_index = Some question2 ∧
    question2 !! "user_answer_index" = Some (PInt second) ∧
    question2 !! "is_correct" = Some (PBool (py_eqb (PInt second) cai)) ∧
    Session.current_question_index session2 = question_index + 1 ∧
    (∀ j, j ≠ Z.to_nat question_index →
          Session.questions session2 !! j = Session.questions session !! j) ∧
    (question_index + 1 < Z.of_nat (length (Session.questions session)) →
     r1 = Ok tt ∧ r2 = Ok tt).
Proof.
  intros [Hlo Hhi] Hq Hquiz Hfind Hcai.
  pose proof (getitem_in_range _ _ _ Hlo Hq) as Hitem.
  destruct (answer_question_resolved_state session question_index first w _ _ _ _ _
              Hhi Hitem Hquiz Hfind Hcai)
    as (r1 & s1 & w1 & Hrun1 & Hqs1 & Hcur1 & Hid1 & Hfiles1 & Hshort1).
  pose proof (recorded_lookup session _ question_index first original cai _ Hq) as Hq1.
  rewrite <- Hqs1 in Hq1.
  assert (length (Session.questions s1) = length (Session.questions session)) as Hlen1
    by (by rewrite Hqs1, recorded_length).
  assert (QuizGame.find_original (Quiz.questions quiz)
            (<["explanation" := default (PStr "") (original !! "explanation")]>
               (<["is_correct" := PBool (py_eqb (PInt first) cai)]>
                  (<["user_answer_index" := PInt first]> question)))
          = Ok (Some original)) as Hfind1.
  { rewrite <- Hfind. apply find_original_same_id. by simplify_map_eq. }
  destruct (answer_question_resolved_state s1 question_index second w1 _ _ quiz original cai
              ltac:(lia) (getitem_in_range _ _ _ Hlo Hq1)
              ltac:(rewrite Hid1; by apply (get_quiz_same_files _ w)) Hfind1 Hcai)
    as (r2 & s2 & w2 & Hrun2 & Hqs2 & Hcur2 & Hid2 & Hfiles2 & Hshort2).
  exists r1, s1, w1, r2, s2, w2. eexists.
  split; [done|]. split; [done|].
  split; [rewrite Hqs2; by apply recorded_lookup|].
  split; [by simplify_map_eq|]. split; [by simplify_map_eq|]. split; [done|].
  split.
  - intros j Hj. by rewrite Hqs2, recorded_lookup_other, Hqs1, recorded_lookup_other.
  - intros Hshort. split; [by apply Hshort1|]. apply Hshort2. lia.
Qed.

End Answering.

Lemma answer_question_unresolved_witness :
  QuizGame.answer_question Sample.env Sample.quiz_game Sample.drawn_session 1 0
    Sample.empty_world = (Ok tt, (Sample.drawn_session, Sample.empty_world)) ∧
  QuizGame.answer_question Sample.env Sample.quiz_game Sample.drawn_session 1 0
    (Sample.world_of [Sample.question "a" 1])
  = (Ok tt, (Sample.drawn_session, Sample.world_of [Sample.question "a" 1])).
Proof.
  split.
  - apply (answer_question_unresolved Sample.env Sample.quiz_game Sample.drawn_session 1 0
             Sample.empty_world).
    + simpl. lia.
    + left. reflexivity.
  - apply (answer_question_unresolved Sample.env Sample.quiz_game Sample.drawn_session 1 0
             (Sample.world_of [Sample.question "a" 1])).
    + simpl. lia.
    + right. exists (Sample.quiz_of [Sample.question "a" 1]),
        (QuizGame.blank_answer (Sample.question "b" 0)), (PStr "b").
      split; [reflexivity|]. split; [reflexivity|]. split; [reflexivity|].
      constructor; [|constructor]. exists (PStr "a"). split; reflexivity.
Defined.

(** C3, on the code. The guard tests [question_index >= len(...)] alone:
    with the index -1 the call reads the last question as [questions[-1]],
    records the answer on it and sets the progress to 0; the session is not
    the one passed in. *)
Theorem answer_question_negative_index_records :
  ∃ session' w' question,
    QuizGame.answer_question Sample.env Sample.quiz_game Sample.drawn_session (-1) 0
      (Sample.world_of Sample.two_questions) = (Ok tt, (session', w')) ∧
    Session.questions Sample.drawn_session !! 1%nat
      = Some (QuizGame.blank_answer (Sample.question "b" 0)) ∧
    Session.questions session' !! 1%nat = Some question ∧
    question !! "user_answer_index" = Some (PInt 0) ∧
    question !! "is_correct" = Some (PBool true) ∧
    session' ≠ Sample.drawn_session.
Proof.
  eexists _, _, _. split; [vm_compute; reflexivity|].
  split; [reflexivity|]. split; [reflexivity|].
  split; [vm_compute; reflexivity|]. split; [vm_compute; reflexivity|].
  intros Heq. apply (f_equal (λ s, Session.questions s !! 1%nat ≫= (.!! "is_correct"))) in Heq.
  vm_compute in Heq. discriminate.
Qed.

(** Below the start of an empty session the indexing itself raises. *)
Example answer_question_empty_session_raises :
  (QuizGame.answer_question Sample.env Sample.quiz_game (Sample.session_of []) (-1) 0
     Sample.empty_world).1 = Raise IndexError.
Proof. reflexivity. Qed.

Lemma answer_question_twice_witness :
  ∃ r1 session1 w1 r2 session2 w2 question2,
    QuizGame.answer_question Sample.env Sample.quiz_game Sample.drawn_session 0 0
      (Sample.world_of Sample.two_questions) = (r1, (session1, w1)) ∧
    QuizGame.answer_question Sample.env Sample.quiz_game session1 0 1 w1
      = (r2, (session2, w2)) ∧
    Session.questions session2 !! Z.to_nat 0 = Some question2 ∧
    question2 !! "user_answer_index" = Some (PInt 1) ∧
    question2 !! "is_correct" = Some (PBool (py_eqb (PInt 1) (PInt 1))) ∧
    Session.current_question_index session2 = 0 + 1 ∧
    (∀ j, j ≠ Z.to_nat 0 →
          Session.questions session2 !! j = Session.questions Sample.drawn_session !! j) ∧
    (0 + 1 < Z.of_nat (length (Session.questions Sample.drawn_session)) →
     r1 = Ok tt ∧ r2 = Ok tt).
Proof.
  apply (answer_question_twice Sample.env Sample.quiz_game Sample.drawn_session 0 0 1
           (Sample.world_of Sample.two_questions)
           (QuizGame.blank_answer (Sample.question "a" 1))
           (Sample.quiz_of Sample.two_questions) (Sample.question "a" 1) (PInt 1)).
  - simpl. lia.
  - reflexivity.
  - reflexivity.
  - reflexivity.
  - reflexivity.
Defined.

(** ** The score *)

Example percent_3_of_4 : percent 3 4 = Ok 75.
Proof. reflexivity. Qed.

Example percent_1_of_3 : percent 1 3 = Ok 33.
Proof. reflexivity. Qed.

(** One right answer in eight is 12.5 percent, a tie: both sides give the
    even 12. *)
Example percent_1_of_8 : percent 1 8 = Ok 12 ∧ round_percent 1 8 = 12.
Proof. split; reflexivity. Qed.

Lemma agrees_up_to_39 : agrees_up_to 39 = true.
Proof. vm_compute. reflexivity. Qed.

(** In a session of fewer than forty questions, as every session
    [create_quiz_session] draws is, [round((c / n) * 100)] is the nearest
    integer to [100 * c / n]. *)
Lemma percent_below_forty (c n : nat) :
  (0 < n < 40)%nat → (c ≤ n)%nat → percent c n = Ok (round_percent c n).
Proof.
  intros Hn Hc. pose proof agrees_up_to_39 as Hall.
  unfold agrees_up_to in Hall. rewrite forallb_forall in Hall.
  specialize (Hall n). rewrite forallb_forall in Hall.
  assert (percent_is c n (round_percent c n) = true) as Hok.
  { apply Hall; apply in_seq; lia. }
  unfold percent_is in Hok. destruct (percent c n) as [v|e]; [|done].
  apply Z.eqb_eq in Hok. by subst.
Qed.

(** C5, on the code. A session of forty questions, 22 answered right and
    17 wrong; the right answer to the last one completes it with 23 right.
    The call stamps [completed_at] and stores the score 57, where
    [round(100 * 23 / 40)], the rounding of 57.5, is 58: in binary64
    [23 / 40] times 100 is 57.49999999999999. *)
Theorem answer_question_score_23_of_40 :
  ∃ session' w',
    QuizGame.answer_question Sample.env Sample.quiz_game Sample.forty_session 39 1
      (Sample.world_of Sample.forty) = (Ok tt, (session', w')) ∧
    length (Session.questions session') = 40%nat ∧
    QuizGame.correct_count (Session.questions session') = 23%nat ∧
    Session.current_question_index session' = 40 ∧
    Session.completed_at session' = Some "t" ∧
    Session.score session' = Some 57 ∧
    round_percent 23 40 = 58.
Proof.
  eexists _, _. split; [vm_compute; reflexivity|].
  repeat split; vm_compute; reflexivity.
Qed.

(** The score law on the sessions it holds for: a resolved call on the
    last index of a session of fewer than forty questions returns, stamps
    the time of the call and stores the nearest integer of the exact
    percentage. *)
Lemma answer_question_score_below_forty env self session answer_index w
    question quiz original cai :
  let n := length (Session.questions session) in
  let last := Z.of_nat n - 1 in
  (0 < n < 40)%nat →
  Session.questions session !! Z.to_nat last = Some question →
  QuizGame.get_quiz self (Session.quiz_id session) w = (Ok (Some quiz), w) →
  QuizGame.find_original (Quiz.questions quiz) question = Ok (Some original) →
  original !! "correct_answer_index" = Some cai →
  ∃ session',
    QuizGame.answer_question env self session last answer_index w
      = (Ok tt, (session', tick w)) ∧
    Session.completed_at session' = Some (clock env (ticks w)) ∧
    Session.score session'
      = Some (round_percent (QuizGame.correct_count (Session.questions session')) n).
Proof.
  intros n last Hn Hq Hquiz Hfind Hcai.
  assert (0 ≤ last) as Hlo by (unfold last; lia).
  rewrite (answer_question_resolved env self session last answer_index w _ _ _ _ _
             ltac:(unfold last, n; lia) (getitem_in_range _ _ _ Hlo Hq) Hquiz Hfind Hcai).
  cbv zeta.
  assert ((Z.of_nat (length (Session.questions session)) <=? last + 1) = true) as ->
    by (apply Z.leb_le; unfold last, n; lia).
  rewrite recorded_length. fold n.
  rewrite percent_below_forty; [|done|].
  - eexists. split; [reflexivity|]. split; reflexivity.
  - unfold QuizGame.correct_count, n.
    rewrite <- (recorded_length session (Z.to_nat last) last answer_index original cai).
    apply length_filter.
Qed.

(** ** Flashcards *)

Section Flashcards.
Context (env : Env) (self : FlashcardGame.t).

Lemma key_leb_total a b :
  FlashcardGame.key_leb a b = false → FlashcardGame.key_leb b a = true.
Proof.
  destruct a as [[a1 a2] a3], b as [[b1 b2] b3]. unfold FlashcardGame.key_leb.
  repeat match goal with
         | |- context [?x <? ?y] => destruct (Z.ltb_spec x y)
         | |- context [?x <=? ?y] => destruct (Z.leb_spec x y)
         end; (done || lia).
Qed.

Lemma key_leb_trans a b c :
  FlashcardGame.key_leb a b = true → FlashcardGame.key_leb b c = true →
  FlashcardGame.key_leb a c = true.
Proof.
  destruct a as [[a1 a2] a3], b as [[b1 b2] b3], c as [[c1 c2] c3].
  unfold FlashcardGame.key_leb.
  repeat match goal with
         | |- context [?x <? ?y] => destruct (Z.ltb_spec x y)
         | |- context [?x <=? ?y] => destruct (Z.leb_spec x y)
         end; (done || lia).
Qed.

Lemma insert_by_Permutation {A} (key : A → Z * Z * Z) x l :
  FlashcardGame.insert_by key x l ≡ₚ x :: l.
Proof.
  induction l as [|y l IH]; [done|]. simpl.
  destruct (FlashcardGame.key_leb _ _); [done|].
  rewrite IH. apply Permutation_swap.
Qed.

(** [sorted] keeps the cards: it neither drops nor repeats one. *)
Lemma sorted_Permutation {A} (key : A → Z * Z * Z) l :
  FlashcardGame.sorted key l ≡ₚ l.
Proof.
  induction l as [|x l IH]; [done|].
  unfold FlashcardGame.sorted in *. simpl. by rewrite insert_by_Permutation, IH.
Qed.

Lemma insert_by_ascending {A} (key : A → Z * Z * Z) x l :
  StronglySorted (λ a b, FlashcardGame.key_leb (key a) (key b) = true) l →
  StronglySorted (λ a b, FlashcardGame.key_leb (key a) (key b) = true)
                 (FlashcardGame.insert_by key x l).
Proof.
  induction 1 as [|y l Hsorted IH Hall]; simpl.
  - by repeat constructor.
  - destruct (FlashcardGame.key_leb (key x) (key y)) eqn:Hxy.
    + constructor; [by constructor|]. constructor; [done|].
      eapply Forall_impl; [exact Hall|]. intros z Hz. by eapply key_leb_trans.
    + constructor; [done|].
      eapply Permutation_Forall; [symmetry; apply insert_by_Permutation|].
      constructor; [by apply key_leb_total | done].
Qed.

(** The order of the code: the keys ascend, so among cards of one review
    status the lower difficulty comes first. *)
Lemma sorted_ascending {A} (key : A → Z * Z * Z) l :
  StronglySorted (λ a b, FlashcardGame.key_leb (key a) (key b) = true)
                 (FlashcardGame.sorted key l).
Proof.
  induction l as [|x l IH]; [constructor|].
  unfold FlashcardGame.sorted in *. simpl. by apply insert_by_ascending.
Qed.

Lemma get_set_stored set_id w flashcard_set :
  set_files w !! FlashcardGame.set_path self set_id = Some (Json flashcard_set) →
  FlashcardGame.get_set self set_id w = (Ok (Some flashcard_set), w).
Proof. intros H. unfold FlashcardGame.get_set. by rewrite H. Qed.

(** The loop of [record_review] on a set that holds the card: the cards
    ahead of the first one with the identifier and those after it stay,
    that one is rewritten with the time read at that moment. *)
Lemma review_loop_found before card rest card_id difficulty w :
  Forall (λ c, Card.id c ≠ card_id) before →
  Card.id card = card_id →
  FlashcardGame.review_loop env (before ++ card :: rest) card_id difficulty w
  = (Ok (before ++ FlashcardGame.reviewed_card card (clock env (ticks w)) difficulty :: rest),
     tick w).
Proof.
  intros Hbefore Hcard. induction Hbefore as [|c before Hc _ IH]; simpl.
  - rewrite bool_decide_eq_true_2 by done. reflexivity.
  - rewrite bool_decide_eq_false_2 by done. run. by rewrite IH.
Qed.

(** C9. [record_review] on a set that resolves and holds a card with the
    identifier: the first such card has its review count raised by exactly
    one, [last_reviewed] set to the time read by the call, and the
    difficulty stored is the input brought into [0, 3]; its other fields
    and the other cards stay, and the set is written back. *)
Theorem record_review_reviews_card set_id card_id difficulty w
    flashcard_set before card rest :
  FlashcardGame.get_set self set_id w = (Ok (Some flashcard_set), w) →
  FlashcardSet.cards flashcard_set = before ++ card :: rest →
  Forall (λ c, Card.id c ≠ card_id) before →
  Card.id card = card_id →
  ∃ flashcard_set' w' card',
    FlashcardGame.record_review env self set_id card_id difficulty w
      = (Ok (Some flashcard_set'), w') ∧
    set_files w' !! FlashcardGame.set_path self (FlashcardSet.id flashcard_set)
      = Some (Json flashcard_set') ∧
    FlashcardSet.cards flashcard_set' = before ++ card' :: rest ∧
    Card.review_count card' = Card.review_count card + 1 ∧
    Card.last_reviewed card' = Some (clock env (ticks w)) ∧
    Card.difficulty card'
      = (if difficulty <? 0 then 0 else if 3 <? difficulty then 3 else difficulty) ∧
    0 ≤ Card.difficulty card' ≤ 3 ∧
    (Card.id card', Card.front card', Card.back card', Card.tags card', Card.created_at card')
      = (Card.id card, Card.front card, Card.back card, Card.tags card, Card.created_at card).
Proof.
  intros Hget Hcards Hbefore Hcard.
  unfold FlashcardGame.record_review.
  rewrite (bind_ok _ _ _ _ _ Hget), Hcards.
  rewrite (bind_ok _ _ _ _ _ (review_loop_found _ _ _ _ difficulty w Hbefore Hcard)).
  run. eexists _, _, _. split; [reflexivity|].
  split; [apply lookup_insert_eq|]. split; [reflexivity|].
  split; [reflexivity|]. split; [reflexivity|]. simpl.
  split; [|split; [lia|reflexivity]].
  destruct (Z.ltb_spec difficulty 0), (Z.ltb_spec 3 difficulty); lia.
Qed.

End Flashcards.

Lemma record_review_reviews_card_witness :
  ∃ flashcard_set' w' card',
    FlashcardGame.record_review Sample.env Sample.flashcard_game "deck" "B" 7
      (Sample.world_of_cards [Sample.card_A; Sample.card_B; Sample.card_C])
      = (Ok (Some flashcard_set'), w') ∧
    set_files w' !! FlashcardGame.set_path Sample.flashcard_game "deck"
      = Some (Json flashcard_set') ∧
    FlashcardSet.cards flashcard_set' = [Sample.card_A] ++ card' :: [Sample.card_C] ∧
    Card.review_count card' = 1 + 1 ∧
    Card.last_reviewed card' = Some "t" ∧
    Card.difficulty card' = 3 ∧
    0 ≤ Card.difficulty card' ≤ 3 ∧
    (Card.id card', Card.front card', Card.back card', Card.tags card', Card.created_at card')
      = ("B", "front", "back", [], "t0").
Proof.
  apply (record_review_reviews_card Sample.env Sample.flashcard_game "deck" "B" 7
           (Sample.world_of_cards [Sample.card_A; Sample.card_B; Sample.card_C])
           (Sample.set_of [Sample.card_A; Sample.card_B; Sample.card_C])
           [Sample.card_A] Sample.card_B [Sample.card_C]).
  - reflexivity.
  - reflexivity.
  - constructor; [simpl; discriminate | constructor].
  - reflexivity.
Defined.

(** The two inputs the specification names: 7 is stored as 3, -2 as 0. *)
Example reviewed_card_clamps :
  Card.difficulty (FlashcardGame.reviewed_card Sample.card_B "t" 7) = 3 ∧
  Card.difficulty (FlashcardGame.reviewed_card Sample.card_B "t" (-2)) = 0.
Proof. split; reflexivity. Qed.

(** C2, on the code. The set holds [A] (never reviewed, difficulty 1),
    [B] (reviewed, difficulty 3) and [C] (reviewed, difficulty 0):
    [get_cards_to_review] returns [A, C, B], the lower difficulty ahead of
    the higher, where the stated order is [A, B, C].  With [C] and [D]
    alike but for one and five reviews, it returns [D] ahead of [C], the
    more reviewed first.  The key sorts [difficulty] and [-review_count]
    ascending under comments that say "highest first" and "least
    reviewed". *)
Theorem get_cards_to_review_lower_difficulty_first :
  (FlashcardGame.get_cards_to_review Sample.flashcard_game "deck" 10
     (Sample.world_of_cards [Sample.card_A; Sample.card_B; Sample.card_C])).1
    = Ok [Sample.card_A; Sample.card_C; Sample.card_B] ∧
  stated_before Sample.card_B Sample.card_C = true ∧
  stated_before Sample.card_C Sample.card_B = false ∧
  (FlashcardGame.get_cards_to_review Sample.flashcard_game "deck" 10
     (Sample.world_of_cards [Sample.card_C; Sample.card_D])).1
    = Ok [Sample.card_D; Sample.card_C] ∧
  stated_before Sample.card_D Sample.card_C = false.
Proof. repeat split; vm_compute; reflexivity. Qed.

(** ** Listing the banks *)

Section Listing.
Context (env : Env) (self : QuizGame.t).

Lemma string_app_cons c (a b : string) : String c a +:+ b = String c (a +:+ b).
Proof. reflexivity. Qed.

Lemma string_app_assoc (a b c : string) : (a +:+ b) +:+ c = a +:+ (b +:+ c).
Proof. induction a as [|x a IH]; [done|]. by rewrite !string_app_cons, IH. Qed.

Lemma strip_prefix_app p s : Os.strip_prefix p (p +:+ s) = Some s.
Proof.
  induction p as [|a p IH]; [by destruct s|].
  rewrite string_app_cons. simpl. by rewrite bool_decide_eq_true_2.
Qed.

Lemma strip_prefix_Some p s name : Os.strip_prefix p s = Some name → s = p +:+ name.
Proof.
  revert s. induction p as [|a p IH]; intros s H.
  - destruct s; simpl in H; by simplify_eq.
  - destruct s as [|b s]; [done|]. simpl in H.
    case_bool_decide; [|done]. subst. rewrite string_app_cons. f_equal. by apply IH.
Qed.

Lemma no_slash_relative name :
  Os.has_slash name = false → String.prefix "/" name = false.
Proof.
  destruct name as [|c name]; [done|]. intros H. simpl in H.
  apply orb_false_iff in H as [H _]. apply bool_decide_eq_false in H.
  cbn [String.prefix]. destruct (ascii_dec "/" c); [by subst|done].
Qed.

Lemma has_slash_app a b :
  Os.has_slash (a +:+ b) = Os.has_slash a || Os.has_slash b.
Proof.
  induction a as [|c a IH]; [done|].
  rewrite string_app_cons. simpl. by rewrite IH, orb_assoc.
Qed.

Lemma endswith_app a suffix : Os.endswith (a +:+ suffix) suffix = true.
Proof.
  induction a as [|c a IH].
  - change (EmptyString +:+ suffix) with suffix.
    destruct suffix; simpl; [done|]. by rewrite bool_decide_eq_true_2.
  - rewrite string_app_cons. simpl. by case_bool_decide.
Qed.

Lemma path_join_relative dir name :
  Os.has_slash name = false → path_join dir name = Os.dir_prefix dir +:+ name.
Proof.
  intros H. unfold path_join, Os.dir_prefix. rewrite (no_slash_relative _ H).
  destruct (_ || _); [done|]. by rewrite string_app_assoc.
Qed.

Lemma entry_name_Some dir path name :
  Os.entry_name dir path = Some name ↔
  path = path_join dir name ∧ Os.has_slash name = false ∧ name ≠ EmptyString.
Proof.
  unfold Os.entry_name. split.
  - destruct (Os.strip_prefix _ _) as [n|] eqn:Hstrip; [|done].
    destruct (bool_decide _ || _) eqn:Hbad; [done|]. intros ?; simplify_eq.
    apply orb_false_iff in Hbad as [Hne Hslash]. apply bool_decide_eq_false in Hne.
    split; [|done]. rewrite (path_join_relative _ _ Hslash).
    by apply strip_prefix_Some.
  - intros (-> & Hslash & Hne).
    rewrite (path_join_relative _ _ Hslash), strip_prefix_app, Hslash.
    by rewrite bool_decide_eq_false_2.
Qed.

(** The names [os.listdir] gives are those of the files of the directory. *)
Lemma elem_of_listdir {A} dir (files : gmap string A) name :
  name ∈ Os.listdir dir files ↔
  is_Some (files !! path_join dir name) ∧ Os.has_slash name = false ∧ name ≠ EmptyString.
Proof.
  unfold Os.listdir. rewrite list_elem_of_omap. split.
  - intros (path & Hin & Hname). apply entry_name_Some in Hname as (-> & ? & ?).
    apply list_elem_of_fmap in Hin as ([path x] & -> & Hin).
    apply elem_of_map_to_list in Hin. simpl in *. eauto.
  - intros ([x Hx] & Hslash & Hne). exists (path_join dir name).
    split; [|by apply entry_name_Some].
    apply list_elem_of_fmap. exists (path_join dir name, x).
    split; [done|]. by apply elem_of_map_to_list.
Qed.

Lemma list_quizzes_loop_sound files names category acc s :
  s ∈ QuizGame.list_quizzes_loop self files names category acc →
  s ∈ acc ∨
  ∃ filename quiz,
    filename ∈ names ∧ Os.endswith filename ".json" = true ∧
    files !! path_join (QuizGame.storage_dir self) filename = Some (Json quiz) ∧
    QuizGame.filtered_out category quiz = false ∧
    s = QuizGame.summary quiz.
Proof.
  revert acc. induction names as [|filename names IH]; intros acc; simpl; [eauto|].
  destruct (Os.endswith filename ".json") eqn:Hjson.
  - destruct (files !! _) as [[quiz|]|] eqn:Hfile; [|eauto..].
    destruct (QuizGame.filtered_out category quiz) eqn:Hcat; intros Hs.
    + apply IH in Hs as [?|(f & q & ? & ?)]; [eauto|].
      right. exists f, q. split; [by right|done].
    + apply IH in Hs as [Hs|(f & q & ? & ?)].
      * apply elem_of_app in Hs as [?|Hs]; [eauto|].
        apply list_elem_of_singleton in Hs as ->.
        right. exists filename, quiz. split; [by left|done].
      * right. exists f, q. split; [by right|done].
  - intros Hs. apply IH in Hs as [?|(f & q & ? & ?)]; [eauto|].
    right. exists f, q. split; [by right|done].
Qed.

Lemma list_quizzes_loop_keeps files names category acc s :
  s ∈ acc → s ∈ QuizGame.list_quizzes_loop self files names category acc.
Proof.
  revert acc. induction names as [|filename names IH]; intros acc Hs; simpl; [done|].
  destruct (Os.endswith filename ".json"); [|by apply IH].
  destruct (files !! _) as [[quiz|]|]; [|done..].
  destruct (QuizGame.filtered_out category quiz); apply IH; [done|].
  apply elem_of_app. by left.
Qed.

Lemma list_quizzes_loop_complete files names category acc filename quiz :
  (∀ name, name ∈ names → Os.endswith name ".json" = true →
           ∃ q, files !! path_join (QuizGame.storage_dir self) name = Some (Json q)) →
  filename ∈ names →
  Os.endswith filename ".json" = true →
  files !! path_join (QuizGame.storage_dir self) filename = Some (Json quiz) →
  QuizGame.filtered_out category quiz = false →
  QuizGame.summary quiz ∈ QuizGame.list_quizzes_loop self files names category acc.
Proof.
  intros Hall Hin Hjson Hfile Hcat. revert acc.
  induction names as [|name names IH]; intros acc; [by apply elem_of_nil in Hin|].
  simpl. apply elem_of_cons in Hin as [<-|Hin].
  - rewrite Hjson, Hfile, Hcat. apply list_quizzes_loop_keeps, elem_of_app.
    right. by apply list_elem_of_singleton.
  - destruct (Os.endswith name ".json") eqn:Hj.
    + destruct (Hall name) as [q Hq]; [by left|done|]. rewrite Hq.
      destruct (QuizGame.filtered_out category q); apply IH; try done;
        intros n ? ?; apply Hall; [by right|done|by right|done].
    + apply IH; [|done]. intros n ? ?. apply Hall; [by right|done].
Qed.

Lemma list_quizzes_loop_stops files before bad after category acc :
  Os.endswith bad ".json" = true →
  files !! path_join (QuizGame.storage_dir self) bad = Some Unreadable →
  QuizGame.list_quizzes_loop self files (before ++ bad :: after) category acc
  = QuizGame.list_quizzes_loop self files before category acc.
Proof.
  intros Hjson Hbad. revert acc.
  induction before as [|name before IH]; intros acc; simpl.
  - by rewrite Hjson, Hbad.
  - destruct (Os.endswith name ".json"); [|done].
    destruct (files !! path_join _ name) as [[q|]|]; [|done..].
    by destruct (QuizGame.filtered_out category q).
Qed.

(** Every entry [list_quizzes] returns is the summary of a bank file of the
    storage directory whose name ends in [.json]: it counts that bank's
    questions, and under a non-empty category filter the bank has exactly
    that category. *)
Theorem list_quizzes_sound category w quizzes w' s :
  QuizGame.list_quizzes self category w = (Ok quizzes, w') →
  s ∈ quizzes →
  ∃ filename quiz,
    filename ∈ Os.listdir (QuizGame.storage_dir self) (quiz_files w) ∧
    Os.endswith filename ".json" = true ∧
    quiz_files w !! path_join (QuizGame.storage_dir self) filename = Some (Json quiz) ∧
    s = QuizGame.summary quiz ∧
    QuizSummary.question_count s = length (Quiz.questions quiz) ∧
    (∀ c, category = Some c → c ≠ EmptyString → QuizSummary.category s = c).
Proof.
  unfold QuizGame.list_quizzes. intros Hrun Hs. simplify_eq.
  apply list_quizzes_loop_sound in Hs as [Hs|(f & q & Hf & Hjson & Hfile & Hcat & ->)];
    [by apply elem_of_nil in Hs|].
  exists f, q. repeat split; try done.
  intros c -> Hc. simpl in Hcat. rewrite bool_decide_eq_false_2 in Hcat by done.
  simpl in Hcat. apply negb_false_iff, bool_decide_eq_true in Hcat. done.
Qed.

(** When every [.json] file of the directory loads, [list_quizzes] misses
    no bank: each bank file that passes the filter has its summary in the
    result. *)
Theorem list_quizzes_complete category w filename quiz :
  quizzes_readable self w →
  Os.has_slash filename = false →
  Os.endswith filename ".json" = true →
  quiz_files w !! path_join (QuizGame.storage_dir self) filename = Some (Json quiz) →
  QuizGame.filtered_out category quiz = false →
  ∃ quizzes,
    QuizGame.list_quizzes self category w = (Ok quizzes, w) ∧
    QuizGame.summary quiz ∈ quizzes.
Proof.
  intros Hall Hslash Hjson Hfile Hcat. eexists. split; [reflexivity|].
  assert (filename ≠ EmptyString) as Hne by (intros ->; done).
  apply list_quizzes_loop_complete with (filename := filename); try done.
  - intros name Hin Hj. specialize (Hall name Hin Hj).
    apply elem_of_listdir in Hin as ([x Hx] & _ & _). rewrite Hx in Hall |- *.
    destruct x; [eauto|done].
  - apply elem_of_listdir. eauto.
Qed.

(** The empty string as category filters nothing: [if category and ...]
    tests its truth value. *)
Theorem list_quizzes_empty_category w :
  QuizGame.list_quizzes self (Some EmptyString) w = QuizGame.list_quizzes self None w.
Proof.
  unfold QuizGame.list_quizzes. f_equal. f_equal.
  generalize (@nil QuizSummary.t) as acc.
  induction (Os.listdir _ _) as [|name names IH]; intros acc; simpl; [done|].
  destruct (Os.endswith name ".json"); [|done].
  destruct (quiz_files w !! _) as [[q|]|]; [|done..].
  simpl. apply IH.
Qed.

(** One file that does not load ends the listing: the result is what the
    names ahead of it gave, and no bank listed after it is returned. *)
Theorem list_quizzes_stops_at_unreadable category w before bad after :
  Os.listdir (QuizGame.storage_dir self) (quiz_files w) = before ++ bad :: after →
  Os.endswith bad ".json" = true →
  quiz_files w !! path_join (QuizGame.storage_dir self) bad = Some Unreadable →
  QuizGame.list_quizzes self category w
  = (Ok (QuizGame.list_quizzes_loop self (quiz_files w) before category []), w).
Proof.
  intros Hdir Hjson Hbad. unfold QuizGame.list_quizzes.
  by rewrite Hdir, list_quizzes_loop_stops.
Qed.

(** A bank [create_quiz] made is listed, with no question, when its
    identifier has no slash (as those of [uuid4]) and the files already
    there load. *)
Theorem create_quiz_then_list_quizzes title description category w :
  Os.has_slash (uuid_src env (uuids w)) = false →
  quizzes_readable self w →
  ∃ quiz w' quizzes,
    QuizGame.create_quiz env self title description category w = (Ok quiz, w') ∧
    QuizGame.list_quizzes self None w' = (Ok quizzes, w') ∧
    QuizGame.summary quiz ∈ quizzes ∧
    QuizSummary.question_count (QuizGame.summary quiz) = 0%nat.
Proof.
  intros Hslash Hall. unfold QuizGame.create_quiz. run.
  eexists _, _, _. split; [reflexivity|]. split; [reflexivity|]. split; [|done].
  set (quiz := Quiz.mk _ _ _ _ _ _ _).
  assert (Os.has_slash (uuid_src env (uuids w) +:+ ".json") = false) as Hname
    by (by rewrite has_slash_app, Hslash).
  simpl. apply list_quizzes_loop_complete with (filename := uuid_src env (uuids w) +:+ ".json").
  - intros name Hin Hj. apply elem_of_listdir in Hin as ([x Hx] & Hs & Hne).
    unfold QuizGame.quiz_path in *. simpl in *.
    destruct (decide (path_join (QuizGame.storage_dir self) (uuid_src env (uuids w) +:+ ".json")
                      = path_join (QuizGame.storage_dir self) name)) as [Heq|Hneq].
    + rewrite Heq, lookup_insert_eq. eauto.
    + rewrite lookup_insert_ne in Hx |- * by done.
      assert (name ∈ Os.listdir (QuizGame.storage_dir self) (quiz_files w)) as Hin
        by (apply elem_of_listdir; eauto).
      specialize (Hall name Hin Hj). rewrite Hx in Hall |- *.
      destruct x; [eauto|done].
  - apply elem_of_listdir. unfold QuizGame.quiz_path. simpl.
    rewrite lookup_insert_eq. split; [eauto|]. split; [done|].
    by destruct (uuid_src env (uuids w)).
  - apply endswith_app.
  - unfold QuizGame.quiz_path. simpl. apply lookup_insert_eq.
  - done.
Qed.

End Listing.

Lemma two_banks_listing :
  Os.listdir (QuizGame.storage_dir Sample.quiz_game) (quiz_files Sample.world_with_two_banks)
  = ["bank.json"; "h.json"].
Proof. vm_compute. reflexivity. Qed.

Lemma two_banks_readable : quizzes_readable Sample.quiz_game Sample.world_with_two_banks.
Proof.
  intros name Hin _. rewrite two_banks_listing in Hin.
  repeat (apply elem_of_cons in Hin as [->|Hin]); [| |by apply elem_of_nil in Hin];
    vm_compute; discriminate.
Qed.

Lemma list_quizzes_sound_witness :
  ∃ filename quiz,
    filename ∈ Os.listdir (QuizGame.storage_dir Sample.quiz_game)
                          (quiz_files Sample.world_with_two_banks) ∧
    Os.endswith filename ".json" = true ∧
    quiz_files Sample.world_with_two_banks
      !! path_join (QuizGame.storage_dir Sample.quiz_game) filename = Some (Json quiz) ∧
    QuizGame.summary (Sample.quiz_of Sample.two_questions) = QuizGame.summary quiz ∧
    QuizSummary.question_count (QuizGame.summary (Sample.quiz_of Sample.two_questions))
      = length (Quiz.questions quiz) ∧
    (∀ c, Some "math" = Some c → c ≠ EmptyString →
          QuizSummary.category (QuizGame.summary (Sample.quiz_of Sample.two_questions)) = c).
Proof.
  apply (list_quizzes_sound Sample.quiz_game (Some "math") Sample.world_with_two_banks
           [QuizGame.summary (Sample.quiz_of Sample.two_questions)]
           Sample.world_with_two_banks).
  - vm_compute. reflexivity.
  - by left.
Defined.

Lemma list_quizzes_complete_witness :
  ∃ quizzes,
    QuizGame.list_quizzes Sample.quiz_game (Some "history") Sample.world_with_two_banks
      = (Ok quizzes, Sample.world_with_two_banks) ∧
    QuizGame.summary Sample.history_quiz ∈ quizzes.
Proof.
  apply (list_quizzes_complete Sample.quiz_game (Some "history") Sample.world_with_two_banks
           "h.json" Sample.history_quiz).
  - exact two_banks_readable.
  - reflexivity.
  - reflexivity.
  - reflexivity.
  - reflexivity.
Defined.

Lemma list_quizzes_stops_at_unreadable_witness :
  QuizGame.list_quizzes Sample.quiz_game None Sample.world_with_unreadable
  = (Ok (QuizGame.list_quizzes_loop Sample.quiz_game
           (quiz_files Sample.world_with_unreadable) [] None []),
     Sample.world_with_unreadable).
Proof.
  apply (list_quizzes_stops_at_unreadable Sample.quiz_game None Sample.world_with_unreadable
           [] "a.json" ["b.json"]).
  - vm_compute. reflexivity.
  - reflexivity.
  - reflexivity.
Defined.

Lemma create_quiz_then_list_quizzes_witness :
  ∃ quiz w' quizzes,
    QuizGame.create_quiz Sample.env Sample.quiz_game "Sums" "" "math"
      Sample.world_with_two_banks = (Ok quiz, w') ∧
    QuizGame.list_quizzes Sample.quiz_game None w' = (Ok quizzes, w') ∧
    QuizGame.summary quiz ∈ quizzes ∧
    QuizSummary.question_count (QuizGame.summary quiz) = 0%nat.
Proof.
  apply (create_quiz_then_list_quizzes Sample.env Sample.quiz_game "Sums" "" "math"
           Sample.world_with_two_banks).
  - reflexivity.
  - exact two_banks_readable.
Defined.

(** ** More on the bank store *)

Section QuizStoreMore.
Context (env : Env) (self : QuizGame.t).

(** [add_question] on a bank that does not resolve, the file missing or
    not loading, returns [None] and leaves everything as it was: no file
    written, no identifier drawn. *)
Theorem add_question_unresolved quiz_id question_text answers index explanation w :
  (QuizGame.get_quiz self quiz_id w).1 = Ok None →
  QuizGame.add_question env self quiz_id question_text answers index explanation w
  = (Ok None, w).
Proof.
  intros Hnone. unfold QuizGame.add_question.
  pose proof (get_quiz_keeps_world self quiz_id w) as Hw.
  destruct (QuizGame.get_quiz self quiz_id w) as [r w0] eqn:Hget.
  simpl in *. subst. by rewrite (bind_ok _ _ _ _ _ Hget).
Qed.

(** [add_question] on a bank stored under its own identifier: reading the
    bank again gives what the call returned, the old questions in their
    order with the new one at the end, a fresh [updated_at], and title,
    description, category and creation time as before. *)
Theorem add_question_then_get_quiz quiz_id question_text answers index explanation w quiz :
  QuizGame.get_quiz self quiz_id w = (Ok (Some quiz), w) →
  Quiz.id quiz = quiz_id →
  ∃ quiz' w' new_question,
    QuizGame.add_question env self quiz_id question_text answers index explanation w
      = (Ok (Some quiz'), w') ∧
    QuizGame.get_quiz self quiz_id w' = (Ok (Some quiz'), w') ∧
    Quiz.questions quiz' = Quiz.questions quiz ++ [new_question] ∧
    new_question !! "id" = Some (PStr (uuid_src env (uuids w))) ∧
    new_question !! "question_text" = Some (PStr question_text) ∧
    new_question !! "explanation" = Some (PStr explanation) ∧
    Quiz.updated_at quiz' = clock env (ticks w) ∧
    (Quiz.id quiz', Quiz.title quiz', Quiz.description quiz', Quiz.category quiz',
     Quiz.created_at quiz')
    = (Quiz.id quiz, Quiz.title quiz, Quiz.description quiz, Quiz.category quiz,
       Quiz.created_at quiz).
Proof.
  intros Hget Hid. unfold QuizGame.add_question.
  rewrite (bind_ok _ _ _ _ _ Hget). run.
  eexists _, _, _. split; [reflexivity|].
  split; [apply get_quiz_stored; simpl; rewrite Hid; apply lookup_insert_eq|].
  split; [reflexivity|]. repeat split; reflexivity.
Qed.

(** The runs of [create_quiz] and [add_question], written out. *)
Lemma create_quiz_run title description category w :
  QuizGame.create_quiz env self title description category w
  = let quiz := Quiz.mk (uuid_src env (uuids w)) title description category
                        (clock env (ticks w)) (clock env (S (ticks w))) [] in
    (Ok quiz,
     mkWorld (<[QuizGame.quiz_path self (Quiz.id quiz) := Json quiz]> (quiz_files w))
             (set_files w) (S (S (ticks w))) (S (uuids w)) (draws w)).
Proof. reflexivity. Qed.

Lemma add_question_run quiz_id question_text answers index explanation w quiz :
  QuizGame.get_quiz self quiz_id w = (Ok (Some quiz), w) →
  QuizGame.add_question env self quiz_id question_text answers index explanation w
  = let new_question : qdict :=
      list_to_map [("id", PStr (uuid_src env (uuids w)));
                   ("question_text", PStr question_text);
                   ("answers", PList answers);
                   ("correct_answer_index", PInt index);
                   ("explanation", PStr explanation)] in
    let quiz' := Quiz.mk (Quiz.id quiz) (Quiz.title quiz) (Quiz.description quiz)
                         (Quiz.category quiz) (Quiz.created_at quiz)
                         (clock env (ticks w)) (Quiz.questions quiz ++ [new_question]) in
    (Ok (Some quiz'),
     mkWorld (<[QuizGame.quiz_path self (Quiz.id quiz) := Json quiz']> (quiz_files w))
             (set_files w) (S (ticks w)) (S (uuids w)) (draws w)).
Proof.
  intros Hget. unfold QuizGame.add_question. by rewrite (bind_ok _ _ _ _ _ Hget).
Qed.

(** [generate_quiz_from_text] returns the quiz as [create_quiz] built it,
    without a question: [add_question] appended the placeholder to its own
    copy, read from the file.  The stored bank holds that one question,
    its index 0 valid among four answers, whatever the text and the count
    asked for. *)
Theorem generate_quiz_from_text_returns_no_question title text_content question_count w :
  ∃ quiz w' stored question,
    QuizGame.generate_quiz_from_text env self title text_content question_count w
      = (Ok quiz, w') ∧
    Quiz.questions quiz = [] ∧
    QuizGame.get_quiz self (Quiz.id quiz) w' = (Ok (Some stored), w') ∧
    Quiz.questions stored = [question] ∧
    question !! "correct_answer_index" = Some (PInt 0) ∧
    valid_question question ∧
    Quiz.id stored = Quiz.id quiz ∧
    Quiz.title stored = title ∧
    Quiz.description stored = "Quiz generated from content: " +:+ title ∧
    Quiz.category stored = "auto-generated".
Proof.
  unfold QuizGame.generate_quiz_from_text.
  rewrite (bind_ok _ _ _ _ _ (create_quiz_run _ _ _ w)). cbv zeta.
  set (quiz := Quiz.mk _ _ _ _ _ _ _).
  set (w1 := mkWorld _ _ _ _ _).
  assert (QuizGame.get_quiz self (Quiz.id quiz) w1 = (Ok (Some quiz), w1)) as Hget
    by (apply get_quiz_stored; apply lookup_insert_eq).
  rewrite (bind_ok _ _ _ _ _ (add_question_run _ _ _ _ _ _ _ Hget)). cbv zeta. run.
  eexists _, _, _, _. split; [reflexivity|]. split; [reflexivity|].
  split; [apply get_quiz_stored; apply lookup_insert_eq|].
  split; [reflexivity|]. split; [reflexivity|].
  split; [|done].
  eexists 0, _. split; [reflexivity|]. split; [reflexivity|]. simpl. lia.
Qed.

End QuizStoreMore.

Lemma add_question_unresolved_witness :
  QuizGame.add_question Sample.env Sample.quiz_game "a" "q" ["x"; "y"] 0 ""
    Sample.world_with_unreadable = (Ok None, Sample.world_with_unreadable).
Proof.
  apply (add_question_unresolved Sample.env Sample.quiz_game "a" "q" ["x"; "y"] 0 ""
           Sample.world_with_unreadable).
  reflexivity.
Defined.

Lemma add_question_then_get_quiz_witness :
  ∃ quiz' w' new_question,
    QuizGame.add_question Sample.env Sample.quiz_game "bank" "q" ["x"; "y"] 0 "why"
      (Sample.world_of Sample.two_questions) = (Ok (Some quiz'), w') ∧
    QuizGame.get_quiz Sample.quiz_game "bank" w' = (Ok (Some quiz'), w') ∧
    Quiz.questions quiz' = Sample.two_questions ++ [new_question] ∧
    new_question !! "id" = Some (PStr "u") ∧
    new_question !! "question_text" = Some (PStr "q") ∧
    new_question !! "explanation" = Some (PStr "why") ∧
    Quiz.updated_at quiz' = "t" ∧
    (Quiz.id quiz', Quiz.title quiz', Quiz.description quiz', Quiz.category quiz',
     Quiz.created_at quiz')
    = ("bank", "Sums", "", "math", "t0").
Proof.
  apply (add_question_then_get_quiz Sample.env Sample.quiz_game "bank" "q" ["x"; "y"] 0 "why"
           (Sample.world_of Sample.two_questions) (Sample.quiz_of Sample.two_questions)).
  - reflexivity.
  - reflexivity.
Defined.

(** ** More on sessions *)

Section SessionsMore.
Context (env : Env) (self : QuizGame.t).

Lemma pick_stored_order_from {A} (before l : list A) :
  pick (before ++ l) (seq (length before) (length l)) = l.
Proof.
  revert before. induction l as [|x l IH]; intros before; [done|].
  unfold pick in *. simpl.
  rewrite (list_lookup_middle before l x (length before) eq_refl). simpl. f_equal.
  specialize (IH (before ++ [x])).
  rewrite <- app_assoc, length_app in IH. simpl in IH.
  by rewrite Nat.add_1_r in IH.
Qed.

Lemma pick_stored_order {A} (l : list A) : pick l (seq 0 (length l)) = l.
Proof. apply (pick_stored_order_from [] l). Qed.

(** Under a fair draw a shuffle is a reordering. *)
Lemma pick_fair {A} (l : list A) d :
  fair env → pick l (rand_src env d (length l)) ≡ₚ l.
Proof.
  intros Hfair. rewrite <- (pick_stored_order l) at 3.
  unfold pick. by apply omap_Permutation.
Qed.

(** [create_quiz_session] on a bank that does not resolve, or that holds
    no question, returns [None] and leaves the world as it was. *)
Theorem create_quiz_session_nothing_to_ask quiz_id user_id w :
  ((QuizGame.get_quiz self quiz_id w).1 = Ok None ∨
   ∃ quiz, QuizGame.get_quiz self quiz_id w = (Ok (Some quiz), w) ∧
           Quiz.questions quiz = []) →
  QuizGame.create_quiz_session env self quiz_id user_id w = (Ok None, w).
Proof.
  intros Hcase. unfold QuizGame.create_quiz_session.
  pose proof (get_quiz_keeps_world self quiz_id w) as Hw.
  destruct Hcase as [Hnone|(quiz & Hget & Hempty)].
  - destruct (QuizGame.get_quiz self quiz_id w) as [r w0] eqn:Hget.
    simpl in *. subst. by rewrite (bind_ok _ _ _ _ _ Hget).
  - rewrite (bind_ok _ _ _ _ _ Hget).
    assert (QuizGame.get_random_questions env self quiz_id 5 w = (Ok [], w)) as Hdraw.
    { unfold QuizGame.get_random_questions.
      by rewrite (bind_ok _ _ _ _ _ Hget), Hempty. }
    by rewrite (bind_ok _ _ _ _ _ Hdraw).
Qed.

(** Under fair draws, [create_quiz_session] on a bank with questions
    returns a session of [min(5, n)] questions: blanked copies of stored
    questions, none taken twice (they are the head of a reordering of the
    bank).  The session starts at index 0 with no completion time and no
    score, carries the bank's title, and no file is touched. *)
Theorem create_quiz_session_draws quiz_id user_id w quiz :
  fair env →
  QuizGame.get_quiz self quiz_id w = (Ok (Some quiz), w) →
  Quiz.questions quiz ≠ [] →
  ∃ session w' drawn rest,
    QuizGame.create_quiz_session env self quiz_id user_id w = (Ok (Some session), w') ∧
    Session.questions session = QuizGame.blank_answer <$> drawn ∧
    drawn ++ rest ≡ₚ Quiz.questions quiz ∧
    length (Session.questions session) = (5 `min` length (Quiz.questions quiz))%nat ∧
    Session.quiz_id session = quiz_id ∧
    Session.user_id session = user_id ∧
    Session.title session = Quiz.title quiz ∧
    Session.started_at session = clock env (ticks w) ∧
    Session.current_question_index session = 0 ∧
    Session.completed_at session = None ∧
    Session.score session = None ∧
    quiz_files w' = quiz_files w.
Proof.
  intros Hfair Hget Hne. unfold QuizGame.create_quiz_session.
  rewrite (bind_ok _ _ _ _ _ Hget).
  set (shuffled := pick (Quiz.questions quiz)
                        (rand_src env (draws w) (length (Quiz.questions quiz)))).
  assert (shuffled ≡ₚ Quiz.questions quiz) as Hperm by (by apply pick_fair).
  assert (length shuffled = length (Quiz.questions quiz)) as Hlen by (by rewrite Hperm).
  set (drawn := if (5 <? length (Quiz.questions quiz))%nat then take 5 shuffled else shuffled).
  assert (QuizGame.get_random_questions env self quiz_id 5 w
          = (Ok drawn, mkWorld (quiz_files w) (set_files w) (ticks w) (uuids w) (S (draws w))))
    as Hdraw.
  { unfold QuizGame.get_random_questions. rewrite (bind_ok _ _ _ _ _ Hget).
    rewrite bool_decide_eq_false_2 by done. unfold drawn.
    destruct (5 <? _)%nat; reflexivity. }
  rewrite (bind_ok _ _ _ _ _ Hdraw).
  assert (length drawn = (5 `min` length (Quiz.questions quiz))%nat) as Hdrawn.
  { unfold drawn. destruct (Nat.ltb_spec 5 (length (Quiz.questions quiz))).
    - rewrite length_take. lia.
    - lia. }
  assert (drawn ≠ []) as Hdne.
  { intros Hnil. rewrite Hnil in Hdrawn. simpl in Hdrawn.
    destruct (Quiz.questions quiz); [done|simpl in Hdrawn; lia]. }
  rewrite bool_decide_eq_false_2 by done. run.
  exists (Session.set_questions
            (Session.mk (uuid_src env (uuids w)) quiz_id user_id (Quiz.title quiz)
                        (clock env (ticks w)) None drawn 0 [] None)
            (QuizGame.blank_answer <$> drawn)).
  eexists _, drawn,
    (if (5 <? length (Quiz.questions quiz))%nat then drop 5 shuffled else []).
  split; [reflexivity|]. split; [reflexivity|].
  split.
  { unfold drawn. destruct (5 <? _)%nat.
    - by rewrite take_drop.
    - by rewrite app_nil_r. }
  split; [simpl; by rewrite length_fmap|].
  repeat split; reflexivity.
Qed.

End SessionsMore.

Lemma sample_env_fair : fair Sample.env.
Proof. intros d n. reflexivity. Qed.

Lemma create_quiz_session_nothing_to_ask_witness :
  QuizGame.create_quiz_session Sample.env Sample.quiz_game "a" None
    Sample.world_with_unreadable = (Ok None, Sample.world_with_unreadable) ∧
  QuizGame.create_quiz_session Sample.env Sample.quiz_game "h" None
    Sample.world_with_two_banks = (Ok None, Sample.world_with_two_banks).
Proof.
  split.
  - apply (create_quiz_session_nothing_to_ask Sample.env Sample.quiz_game "a" None
             Sample.world_with_unreadable).
    left. reflexivity.
  - apply (create_quiz_session_nothing_to_ask Sample.env Sample.quiz_game "h" None
             Sample.world_with_two_banks).
    right. exists Sample.history_quiz. split; reflexivity.
Defined.

Lemma create_quiz_session_draws_witness :
  ∃ session w' drawn rest,
    QuizGame.create_quiz_session Sample.env Sample.quiz_game "bank" (Some "ann")
      (Sample.world_of Sample.forty) = (Ok (Some session), w') ∧
    Session.questions session = QuizGame.blank_answer <$> drawn ∧
    drawn ++ rest ≡ₚ Quiz.questions (Sample.quiz_of Sample.forty) ∧
    length (Session.questions session)
      = (5 `min` length (Quiz.questions (Sample.quiz_of Sample.forty)))%nat ∧
    Session.quiz_id session = "bank" ∧
    Session.user_id session = Some "ann" ∧
    Session.title session = Quiz.title (Sample.quiz_of Sample.forty) ∧
    Session.started_at session = clock Sample.env (ticks (Sample.world_of Sample.forty)) ∧
    Session.current_question_index session = 0 ∧
    Session.completed_at session = None ∧
    Session.score session = None ∧
    quiz_files w' = quiz_files (Sample.world_of Sample.forty).
Proof.
  apply (create_quiz_session_draws Sample.env Sample.quiz_game "bank" (Some "ann")
           (Sample.world_of Sample.forty) (Sample.quiz_of Sample.forty)).
  - exact sample_env_fair.
  - reflexivity.
  - discriminate.
Defined.

(** ** More on answering *)

Section AnsweringMore.
Context (env : Env) (self : QuizGame.t).

Lemma getitem_negative {A} (l : list A) (i : Z) x :
  - Z.of_nat (length l) ≤ i < 0 →
  l !! Z.to_nat (Z.of_nat (length l) + i) = Some x →
  getitem l i = Ok (Z.to_nat (Z.of_nat (length l) + i), x).
Proof.
  intros [Hlo Hhi] Hx. unfold getitem.
  assert ((0 <=? i) = false) as -> by (by apply Z.leb_gt).
  assert ((Z.of_nat (length l) + i <? 0) = false) as -> by (apply Z.ltb_ge; lia).
  by rewrite Hx.
Qed.

Lemma getitem_below_start {A} (l : list A) (i : Z) :
  i < - Z.of_nat (length l) → getitem l i = Raise IndexError.
Proof.
  intros Hlo. unfold getitem.
  assert ((0 <=? i) = false) as -> by (apply Z.leb_gt; lia).
  by assert ((Z.of_nat (length l) + i <? 0) = true) as -> by (apply Z.ltb_lt; lia).
Qed.

Lemma find_original_raises questions (question : qdict) e :
  QuizGame.find_original questions question = Raise e → e = KeyError "id".
Proof.
  induction questions as [|q rest IH]; [done|]. simpl. unfold getkey.
  destruct (q !! "id"); [|by intros ?; simplify_eq].
  destruct (question !! "id"); [|by intros ?; simplify_eq].
  by destruct (py_eqb _ _).
Qed.

(** An index in [-n, 0): the call answers the question [n + index] as
    Python's indexing reads it, returns, and sets the progress to
    [index + 1], which is at most 0; it never completes the session. *)
Theorem answer_question_negative_index session question_index answer_index w
    question quiz original cai :
  - Z.of_nat (length (Session.questions session)) ≤ question_index < 0 →
  Session.questions session
    !! Z.to_nat (Z.of_nat (length (Session.questions session)) + question_index)
    = Some question →
  QuizGame.get_quiz self (Session.quiz_id session) w = (Ok (Some quiz), w) →
  QuizGame.find_original (Quiz.questions quiz) question = Ok (Some original) →
  original !! "correct_answer_index" = Some cai →
  ∃ session' question',
    QuizGame.answer_question env self session question_index answer_index w
      = (Ok tt, (session', w)) ∧
    Session.questions session'
      !! Z.to_nat (Z.of_nat (length (Session.questions session)) + question_index)
      = Some question' ∧
    question' !! "user_answer_index" = Some (PInt answer_index) ∧
    question' !! "is_correct" = Some (PBool (py_eqb (PInt answer_index) cai)) ∧
    Session.current_question_index session' = question_index + 1 ∧
    Session.completed_at session' = Session.completed_at session ∧
    Session.score session' = Session.score session.
Proof.
  intros Hrange Hq Hquiz Hfind Hcai.
  rewrite (answer_question_resolved env self session question_index answer_index w _ _ _ _ _
             ltac:(lia) (getitem_negative _ _ _ Hrange Hq) Hquiz Hfind Hcai).
  cbv zeta.
  assert ((Z.of_nat (length (Session.questions session)) <=? question_index + 1) = false)
    as -> by (apply Z.leb_gt; lia).
  eexists _, _. split; [reflexivity|].
  split; [by apply recorded_lookup|].
  split; [by simplify_map_eq|]. split; [by simplify_map_eq|]. done.
Qed.

(** An index below [-n]: the indexing raises [IndexError] and nothing is
    written. *)
Theorem answer_question_index_below_start session question_index answer_index w :
  question_index < - Z.of_nat (length (Session.questions session)) →
  QuizGame.answer_question env self session question_index answer_index w
  = (Raise IndexError, (session, w)).
Proof.
  intros Hlo. unfold QuizGame.answer_question, QuizGame.answer_question_call. run.
  assert ((Z.of_nat (length (Session.questions session)) <=? question_index) = false)
    as -> by (apply Z.leb_gt; lia).
  by rewrite getitem_below_start.
Qed.

(** A missing key raises before anything is written: when the search for
    the original question raises (a question without [id], in the bank or
    in the session), or the question found has no [correct_answer_index],
    the call raises that [KeyError] and the session is as it was. *)
Theorem answer_question_missing_key session question_index answer_index w
    pos question quiz e :
  question_index < Z.of_nat (length (Session.questions session)) →
  getitem (Session.questions session) question_index = Ok (pos, question) →
  QuizGame.get_quiz self (Session.quiz_id session) w = (Ok (Some quiz), w) →
  (QuizGame.find_original (Quiz.questions quiz) question = Raise e ∨
   ∃ original,
     QuizGame.find_original (Quiz.questions quiz) question = Ok (Some original) ∧
     original !! "correct_answer_index" = None ∧
     e = KeyError "correct_answer_index") →
  QuizGame.answer_question env self session question_index answer_index w
    = (Raise e, (session, w)) ∧
  (e = KeyError "id" ∨ e = KeyError "correct_answer_index").
Proof.
  intros Hlt Hitem Hquiz Hcase.
  unfold QuizGame.answer_question, QuizGame.answer_question_call. run.
  apply Z.leb_gt in Hlt. rewrite Hlt, Hitem. run. rewrite Hquiz. run.
  destruct Hcase as [Hraise|(original & Hfind & Hnone & ->)].
  - rewrite Hraise. split; [done|]. left. by eapply find_original_raises.
  - rewrite Hfind. run. unfold getkey. rewrite Hnone. split; [done|by right].
Qed.

(** A resolved call on an index short of the last one returns without
    touching completion time, score or world; the question answered gets
    the bank's explanation (the empty string when the bank has none) and
    keeps every other key, and the other questions stay. *)
Theorem answer_question_short_of_end session question_index answer_index w
    question quiz original cai :
  0 ≤ question_index →
  question_index + 1 < Z.of_nat (length (Session.questions session)) →
  Session.questions session !! Z.to_nat question_index = Some question →
  QuizGame.get_quiz self (Session.quiz_id session) w = (Ok (Some quiz), w) →
  QuizGame.find_original (Quiz.questions quiz) question = Ok (Some original) →
  original !! "correct_answer_index" = Some cai →
  ∃ session' question',
    QuizGame.answer_question env self session question_index answer_index w
      = (Ok tt, (session', w)) ∧
    Session.completed_at session' = Session.completed_at session ∧
    Session.score session' = Session.score session ∧
    Session.questions session' !! Z.to_nat question_index = Some question' ∧
    question' !! "explanation" = Some (default (PStr "") (original !! "explanation")) ∧
    (∀ key, key ∉ ["user_answer_index"; "is_correct"; "explanation"] →
            question' !! key = question !! key) ∧
    (∀ j, j ≠ Z.to_nat question_index →
          Session.questions session' !! j = Session.questions session !! j).
Proof.
  intros Hlo Hhi Hq Hquiz Hfind Hcai.
  rewrite (answer_question_resolved env self session question_index answer_index w _ _ _ _ _
             ltac:(lia) (getitem_in_range _ _ _ Hlo Hq) Hquiz Hfind Hcai).
  cbv zeta.
  assert ((Z.of_nat (length (Session.questions session)) <=? question_index + 1) = false)
    as -> by (apply Z.leb_gt; lia).
  eexists _, _. split; [reflexivity|]. split; [done|]. split; [done|].
  split; [by apply recorded_lookup|]. split; [by simplify_map_eq|].
  split.
  - intros key Hkey. rewrite !lookup_insert_ne; [done|..]; intros <-; set_solver.
  - intros j Hj. by apply recorded_lookup_other.
Qed.

Lemma filter_none_counted questions :
  Forall not_counted questions →
  filter (λ q : qdict, truthy (default (PBool false) (q !! "is_correct")) = true) questions
  = [].
Proof.
  unfold not_counted. induction 1 as [|q l Hq _ IH]; [done|].
  rewrite filter_cons_False; [done|]. by rewrite Hq.
Qed.

Lemma round_percent_none n : (0 < n)%nat → round_percent 0 n = 0.
Proof.
  intros Hn. unfold round_percent. simpl.
  rewrite Z.div_0_l, Z.mod_0_l by lia.
  by assert ((2 * 0 <? Z.of_nat n) = true) as -> by (apply Z.ltb_lt; lia).
Qed.

(** Completion goes by the index alone.  On a session of fewer than forty
    questions none of which counts as right, a resolved call on the last
    index completes the session whatever was left unanswered: it stamps
    the time and scores the one answer given, [round(100 / n)] when right
    and 0 when wrong. *)
Theorem answer_question_last_index_completes session answer_index w
    question quiz original cai :
  let n := length (Session.questions session) in
  let last := Z.of_nat n - 1 in
  (0 < n < 40)%nat →
  Forall not_counted (Session.questions session) →
  Session.questions session !! Z.to_nat last = Some question →
  QuizGame.get_quiz self (Session.quiz_id session) w = (Ok (Some quiz), w) →
  QuizGame.find_original (Quiz.questions quiz) question = Ok (Some original) →
  original !! "correct_answer_index" = Some cai →
  ∃ session',
    QuizGame.answer_question env self session last answer_index w
      = (Ok tt, (session', tick w)) ∧
    Session.current_question_index session' = Z.of_nat n ∧
    Session.completed_at session' = Some (clock env (ticks w)) ∧
    Session.score session'
      = Some (if py_eqb (PInt answer_index) cai then round_percent 1 n else 0).
Proof.
  intros n last Hn Hnone Hq Hquiz Hfind Hcai.
  assert (0 ≤ last) as Hlo by (unfold last; lia).
  rewrite (answer_question_resolved env self session last answer_index w _ _ _ _ _
             ltac:(unfold last, n; lia) (getitem_in_range _ _ _ Hlo Hq) Hquiz Hfind Hcai).
  cbv zeta.
  assert ((Z.of_nat (length (Session.questions session)) <=? last + 1) = true) as ->
    by (apply Z.leb_le; unfold last, n; lia).
  rewrite recorded_length. fold n.
  set (after := recorded session (Z.to_nat last) last answer_index original cai).
  assert (QuizGame.correct_count (Session.questions after)
          = if py_eqb (PInt answer_index) cai then 1%nat else 0%nat) as Hcount.
  { assert (Session.questions after
            = take (Z.to_nat last) (Session.questions session)
              ++ <["explanation" := default (PStr "") (original !! "explanation")]>
                   (<["is_correct" := PBool (py_eqb (PInt answer_index) cai)]>
                      (<["user_answer_index" := PInt answer_index]> question))
              :: drop (S (Z.to_nat last)) (Session.questions session)) as ->.
    { apply list_eq. intros j.
      destruct (decide (j = Z.to_nat last)) as [->|Hj].
      - unfold after. rewrite (recorded_lookup _ _ _ _ _ _ _ Hq).
        rewrite list_lookup_middle; [done|].
        rewrite length_take. apply lookup_lt_Some in Hq. lia.
      - unfold after. rewrite recorded_lookup_other by done.
        rewrite <- (take_drop_middle _ _ _ Hq) at 1.
        assert (length (take (Z.to_nat last) (Session.questions session)) = Z.to_nat last)
          as Hlen by (rewrite length_take; apply lookup_lt_Some in Hq; lia).
        destruct (decide (j < Z.to_nat last)%nat).
        + by rewrite !lookup_app_l by lia.
        + rewrite !lookup_app_r by lia. rewrite Hlen.
          destruct (j - Z.to_nat last)%nat eqn:Hd; [lia|done]. }
    unfold QuizGame.correct_count. rewrite filter_app, filter_cons.
    rewrite !filter_none_counted by (by apply Forall_take || by apply Forall_drop).
    rewrite lookup_insert_ne, lookup_insert_eq by done.
    generalize (py_eqb (PInt answer_index) cai). intros [|]; simpl; try case_decide; done. }
  rewrite Hcount, percent_below_forty; [|done|destruct (py_eqb _ _); lia].
  eexists. split; [reflexivity|]. split; [simpl; unfold last; lia|]. split; [done|].
  cbn [Session.score Session.set_score].
  destruct (py_eqb _ _); [done|]. by rewrite round_percent_none by lia.
Qed.

End AnsweringMore.
